(** * UnicodeConvStd: UTF-16 / UTF-8 conversion helpers

    A shallow embedding of [UnicodeConvStd.hpp] (namespace [UnicodeConvStd]):
    the exception class [UnicodeConversionException], the helper
    [detail::SafeIntFromSizet] and the two conversion functions
    [Utf8FromUtf16] and [Utf16FromUtf8].

    The C++ functions call the Win32 API ([WideCharToMultiByte],
    [MultiByteToWideChar], [GetLastError]); here the API is an interface
    ([Win32API]) over an abstract platform state, so that every statement
    about the conversion functions themselves holds whatever the platform
    does.  Exceptions are an explicit outcome, and every run keeps a log of
    the calls it made, in the order it made them. *)

From Stdlib Require Import Ascii String ZArith List Bool Lia.
Import ListNotations.
Local Open Scope Z_scope.

(** ** Machine types *)

(** [wchar_t] is a 16-bit code unit, [char] an 8-bit one (kept as its
    unsigned bit pattern), [DWORD] and [UINT] are 32-bit unsigned, [int] is
    32-bit signed.  All of them are carried by [Z]. *)
Abbreviation wchar_t := Z (only parsing).
Abbreviation char := Z (only parsing).
Abbreviation DWORD := Z (only parsing).
Abbreviation UINT := Z (only parsing).

Definition wchar_ok (w : wchar_t) : Prop := 0 <= w < 65536.

(** [(std::numeric_limits<int>::max)()] *)
Definition INT_MAX : Z := 2147483647.

(** [static_cast<int>(s)]: reduction to 32 bits, two's complement. *)
Definition static_cast_int (s : Z) : Z := (s + 2 ^ 31) mod 2 ^ 32 - 2 ^ 31.

(** Constants of [windows.h] used by the header. *)
Definition CP_UTF8 : UINT := 65001.
Definition WC_ERR_INVALID_CHARS : DWORD := 128.
Definition MB_ERR_INVALID_CHARS : DWORD := 8.

(** ** Exceptions *)

(** [std::runtime_error]: carries the string given to its constructor, which
    [what()] reports as a C string. *)
Record runtime_error : Type := mk_runtime_error { what : string }.

(** A string read through a [const char*]: the characters before the first
    NUL. *)
Fixpoint c_str (s : string) : string :=
  match s with
  | EmptyString => EmptyString
  | String c rest =>
      if Ascii.eqb c Ascii.zero then EmptyString else String c (c_str rest)
  end.

(** Whether a string holds a NUL character.  A message given as a
    [const char*] never does; one given as a [std::string] may. *)
Fixpoint has_nul (s : string) : bool :=
  match s with
  | EmptyString => false
  | String c rest => Ascii.eqb c Ascii.zero || has_nul rest
  end.

Inductive ConversionType : Type :=
| ConversionFromUtf16ToUtf8
| ConversionFromUtf8ToUtf16.

(** [class UnicodeConversionException : public std::runtime_error], with its
    two private members. *)
Record UnicodeConversionException : Type := mk_UnicodeConversionException {
  base : runtime_error;
  m_errorCode : DWORD;
  m_conversionType : ConversionType
}.

(** The constructor; the [const char*] and the [const std::string&] overloads
    have the same initialiser list. *)
Definition UnicodeConversionException_ctor
    (errorCode : DWORD) (conversionType : ConversionType) (message : string)
  : UnicodeConversionException :=
  {| base := mk_runtime_error message;
     m_errorCode := errorCode;
     m_conversionType := conversionType |}.

Definition GetErrorCode (e : UnicodeConversionException) : DWORD :=
  m_errorCode e.

Definition GetConversionType (e : UnicodeConversionException) : ConversionType :=
  m_conversionType e.

(** [what()] is inherited from [std::runtime_error]; it returns a
    [const char*], so that its caller reads the message up to the first
    NUL. *)
Definition what_of (e : UnicodeConversionException) : string :=
  c_str (what (base e)).

(** What a call of the library can throw: [std::overflow_error] from
    [SafeIntFromSizet], [std::length_error] from the [std::basic_string]
    constructor, and [UnicodeConversionException]. *)
Inductive exception : Type :=
| overflow_error (e : runtime_error)
| length_error
| conversion_exception (e : UnicodeConversionException).

Inductive Outcome (A : Type) : Type :=
| Return (a : A)
| Throw (e : exception).
Arguments Return {A} a.
Arguments Throw {A} e.

(** ** detail::SafeIntFromSizet *)

Definition overflow_message : string :=
  "Input size_t value is too large: size_t-length doesn't fit into an int."%string.

(** [static_cast<size_t>(INT_MAX)] keeps the value: [INT_MAX] is positive and
    [size_t] has at least 32 bits. *)
Definition SafeIntFromSizet (s : Z) : Outcome Z :=
  if s >? INT_MAX
  then Throw (overflow_error (mk_runtime_error overflow_message))
  else Return (static_cast_int s).

(** ** The platform *)

(** The three Win32 entry points the header calls.  A primitive receives the
    code page, the flags, the source units and the source length, the
    destination ([None] for [nullptr], otherwise the current contents of the
    buffer) and its capacity, and the state of the platform; it answers with
    its [int] return value, the units it writes from the start of the
    destination, and the new state of the platform. *)
Class Win32API (Platform : Type) : Type := {
  WideCharToMultiByte :
    UINT -> DWORD -> list wchar_t -> Z -> option (list char) -> Z ->
    Platform -> Z * list char * Platform;
  MultiByteToWideChar :
    UINT -> DWORD -> list char -> Z -> option (list wchar_t) -> Z ->
    Platform -> Z * list wchar_t * Platform;
  GetLastError : Platform -> DWORD
}.

(** The calls a run makes, as they appear in the source. *)
Inductive Event : Type :=
| EvSafeIntFromSizet (s : Z)
| EvWideCharToMultiByte (CodePage : UINT) (dwFlags : DWORD)
    (cchWideChar : Z) (destination : bool) (cbMultiByte : Z)
| EvMultiByteToWideChar (CodePage : UINT) (dwFlags : DWORD)
    (cbMultiByte : Z) (destination : bool) (cchWideChar : Z)
| EvGetLastError
| EvAllocate (count : Z).

(** The destination is a buffer of fixed length, the [std::basic_string]
    the conversion has allocated: [written] overwrites it from its first
    unit.  The primitive is given the capacity of the buffer; a write beyond
    it would be undefined behaviour in C++ and is not modelled, so that the
    string keeps the length it was constructed with. *)
Definition store {A : Type} (buffer written : list A) : list A :=
  firstn (length buffer) (written ++ skipn (length written) buffer).

Definition is_some {A : Type} (o : option A) : bool :=
  match o with Some _ => true | None => false end.

Definition after_call {A : Type} (destination : option (list A))
    (written : list A) : list A :=
  match destination with
  | Some buffer => store buffer written
  | None => []
  end.

Section Conversions.

Context {Platform : Type} {api : Win32API Platform}.

(** The state of a run: the platform, and the calls made so far. *)
Record Machine : Type := mk_Machine {
  platform : Platform;
  log : list Event
}.

Definition M (A : Type) : Type := Machine -> Outcome A * Machine.

Definition ret {A : Type} (a : A) : M A := fun m => (Return a, m).

Definition throw {A : Type} (e : exception) : M A := fun m => (Throw e, m).

Definition bind {A B : Type} (c : M A) (k : A -> M B) : M B :=
  fun m =>
    match c m with
    | (Return a, m') => k a m'
    | (Throw e, m') => (Throw e, m')
    end.

Definition record (ev : Event) : M unit :=
  fun m => (Return tt, mk_Machine (platform m) (log m ++ [ev])).

Notation "x <- c ;; k" := (bind c (fun x => k))
  (at level 61, c at next level, right associativity).
Notation "c ;;; k" := (bind c (fun _ => k))
  (at level 61, right associativity).

Definition call_SafeIntFromSizet (s : Z) : M Z :=
  record (EvSafeIntFromSizet s) ;;;
  fun m => (SafeIntFromSizet s, m).

(** A call of [::WideCharToMultiByte]: the answer is the return value and
    the contents of the destination after the call. *)
Definition call_WideCharToMultiByte (CodePage : UINT) (dwFlags : DWORD)
    (lpWideCharStr : list wchar_t) (cchWideChar : Z)
    (lpMultiByteStr : option (list char)) (cbMultiByte : Z)
  : M (Z * list char) :=
  record (EvWideCharToMultiByte CodePage dwFlags cchWideChar
            (is_some lpMultiByteStr) cbMultiByte) ;;;
  fun m =>
    let '(r, written, p) :=
      WideCharToMultiByte CodePage dwFlags lpWideCharStr cchWideChar
        lpMultiByteStr cbMultiByte (platform m) in
    (Return (r, after_call lpMultiByteStr written), mk_Machine p (log m)).

Definition call_MultiByteToWideChar (CodePage : UINT) (dwFlags : DWORD)
    (lpMultiByteStr : list char) (cbMultiByte : Z)
    (lpWideCharStr : option (list wchar_t)) (cchWideChar : Z)
  : M (Z * list wchar_t) :=
  record (EvMultiByteToWideChar CodePage dwFlags cbMultiByte
            (is_some lpWideCharStr) cchWideChar) ;;;
  fun m =>
    let '(r, written, p) :=
      MultiByteToWideChar CodePage dwFlags lpMultiByteStr cbMultiByte
        lpWideCharStr cchWideChar (platform m) in
    (Return (r, after_call lpWideCharStr written), mk_Machine p (log m)).

Definition call_GetLastError : M DWORD :=
  record EvGetLastError ;;;
  fun m => (Return (GetLastError (platform m)), m).

(** [std::basic_string(count, ch)]: [count] is converted from [int] to
    [size_type]; a negative [int] becomes a value above [max_size()], for
    which the constructor throws [std::length_error].  Memory is not
    bounded: a failed allocation ([std::bad_alloc]) and the limit
    [max_size()] on a positive count are not modelled.  The [_ASSERTE] on
    the buffer pointer that follows in the source has no effect. *)
Definition basic_string_ctor (count : Z) (ch : Z) : M (list Z) :=
  record (EvAllocate count) ;;;
  if count <? 0 then throw length_error
  else ret (repeat ch (Z.to_nat count)).

(** [std::basic_string_view::empty()] *)
Definition empty {A : Type} (s : list A) : bool :=
  match s with [] => true | _ :: _ => false end.

Definition measure_message_utf8 : string :=
  "Can't get result UTF-8 string length (WideCharToMultiByte failed)."%string.
Definition fill_message_utf8 : string :=
  "Can't convert from UTF-16 to UTF-8 string (WideCharToMultiByte failed)."%string.
Definition measure_message_utf16 : string :=
  "Can't get result UTF-16 string length (MultiByteToWideChar failed)."%string.
Definition fill_message_utf16 : string :=
  "Can't convert from UTF-8 to UTF-16 string (MultiByteToWideChar failed)."%string.

Definition Utf8FromUtf16 (utf16 : list wchar_t) : M (list char) :=
  if empty utf16 then ret []
  else
    let kFlags := WC_ERR_INVALID_CHARS in
    utf16Length <- call_SafeIntFromSizet (Z.of_nat (length utf16)) ;;
    measured <- call_WideCharToMultiByte CP_UTF8 kFlags utf16 utf16Length
                  None 0 ;;
    let utf8Length := fst measured in
    if utf8Length =? 0 then
      errorCode <- call_GetLastError ;;
      throw (conversion_exception
               (UnicodeConversionException_ctor errorCode
                  ConversionFromUtf16ToUtf8 measure_message_utf8))
    else
      utf8 <- basic_string_ctor utf8Length 0 ;;
      filled <- call_WideCharToMultiByte CP_UTF8 kFlags utf16 utf16Length
                  (Some utf8) utf8Length ;;
      let result := fst filled in
      let utf8 := snd filled in
      if result =? 0 then
        errorCode <- call_GetLastError ;;
        throw (conversion_exception
                 (UnicodeConversionException_ctor errorCode
                    ConversionFromUtf16ToUtf8 fill_message_utf8))
      else ret utf8.

Definition Utf16FromUtf8 (utf8 : list char) : M (list wchar_t) :=
  if empty utf8 then ret []
  else
    let kFlags := MB_ERR_INVALID_CHARS in
    utf8Length <- call_SafeIntFromSizet (Z.of_nat (length utf8)) ;;
    measured <- call_MultiByteToWideChar CP_UTF8 kFlags utf8 utf8Length
                  None 0 ;;
    let utf16Length := fst measured in
    if utf16Length =? 0 then
      errorCode <- call_GetLastError ;;
      throw (conversion_exception
               (UnicodeConversionException_ctor errorCode
                  ConversionFromUtf8ToUtf16 measure_message_utf16))
    else
      utf16 <- basic_string_ctor utf16Length 0 ;;
      filled <- call_MultiByteToWideChar CP_UTF8 kFlags utf8 utf8Length
                  (Some utf16) utf16Length ;;
      let result := fst filled in
      let utf16 := snd filled in
      if result =? 0 then
        errorCode <- call_GetLastError ;;
        throw (conversion_exception
                 (UnicodeConversionException_ctor errorCode
                    ConversionFromUtf8ToUtf16 fill_message_utf16))
      else ret utf16.

(** [Utf16FromUtf8(Utf8FromUtf16(utf16))] *)
Definition round_trip (utf16 : list wchar_t) : M (list wchar_t) :=
  utf8 <- Utf8FromUtf16 utf16 ;;
  Utf16FromUtf8 utf8.

End Conversions.

(** ** Runs of the two conversions, path by path *)

Section Runs.

Context {Platform : Type} {api : Win32API Platform}.

(** The measure pass and the fill pass, as the conversions call them. *)
Definition measure_pass16to8 (utf16 : list wchar_t) (p : Platform) :=
  WideCharToMultiByte CP_UTF8 WC_ERR_INVALID_CHARS utf16
    (Z.of_nat (length utf16)) None 0 p.

Definition fill_pass16to8 (utf16 : list wchar_t) (utf8Length : Z)
    (p : Platform) :=
  WideCharToMultiByte CP_UTF8 WC_ERR_INVALID_CHARS utf16
    (Z.of_nat (length utf16))
    (Some (repeat 0 (Z.to_nat utf8Length))) utf8Length p.

Definition measure_pass8to16 (utf8 : list char) (p : Platform) :=
  MultiByteToWideChar CP_UTF8 MB_ERR_INVALID_CHARS utf8
    (Z.of_nat (length utf8)) None 0 p.

Definition fill_pass8to16 (utf8 : list char) (utf16Length : Z)
    (p : Platform) :=
  MultiByteToWideChar CP_UTF8 MB_ERR_INVALID_CHARS utf8
    (Z.of_nat (length utf8))
    (Some (repeat 0 (Z.to_nat utf16Length))) utf16Length p.

(** The calls of a complete run, in order: cast, measure, allocate, fill. *)
Definition steps16to8 (n r : Z) : list Event :=
  [ EvSafeIntFromSizet n;
    EvWideCharToMultiByte CP_UTF8 WC_ERR_INVALID_CHARS n false 0;
    EvAllocate r;
    EvWideCharToMultiByte CP_UTF8 WC_ERR_INVALID_CHARS n true r ].

Definition steps8to16 (n r : Z) : list Event :=
  [ EvSafeIntFromSizet n;
    EvMultiByteToWideChar CP_UTF8 MB_ERR_INVALID_CHARS n false 0;
    EvAllocate r;
    EvMultiByteToWideChar CP_UTF8 MB_ERR_INVALID_CHARS n true r ].

Definition conversion_error (code : DWORD) (d : ConversionType)
    (message : string) : exception :=
  conversion_exception (UnicodeConversionException_ctor code d message).

(** What [Utf8FromUtf16] does on a non-empty source whose length fits. *)
Definition Utf8FromUtf16_paths (utf16 : list wchar_t) (m : Machine)
  : Outcome (list char) * Machine :=
  let n := Z.of_nat (length utf16) in
  let '(r1, _, p1) := measure_pass16to8 utf16 (platform m) in
  if r1 =? 0 then
    (Throw (conversion_error (GetLastError p1) ConversionFromUtf16ToUtf8
              measure_message_utf8),
     mk_Machine p1 (log m ++ firstn 2 (steps16to8 n r1) ++ [EvGetLastError]))
  else if r1 <? 0 then
    (Throw length_error,
     mk_Machine p1 (log m ++ firstn 3 (steps16to8 n r1)))
  else
    let '(r2, w2, p2) := fill_pass16to8 utf16 r1 p1 in
    if r2 =? 0 then
      (Throw (conversion_error (GetLastError p2) ConversionFromUtf16ToUtf8
                fill_message_utf8),
       mk_Machine p2 (log m ++ steps16to8 n r1 ++ [EvGetLastError]))
    else
      (Return (store (repeat 0 (Z.to_nat r1)) w2),
       mk_Machine p2 (log m ++ steps16to8 n r1)).

Definition Utf16FromUtf8_paths (utf8 : list char) (m : Machine)
  : Outcome (list wchar_t) * Machine :=
  let n := Z.of_nat (length utf8) in
  let '(r1, _, p1) := measure_pass8to16 utf8 (platform m) in
  if r1 =? 0 then
    (Throw (conversion_error (GetLastError p1) ConversionFromUtf8ToUtf16
              measure_message_utf16),
     mk_Machine p1 (log m ++ firstn 2 (steps8to16 n r1) ++ [EvGetLastError]))
  else if r1 <? 0 then
    (Throw length_error,
     mk_Machine p1 (log m ++ firstn 3 (steps8to16 n r1)))
  else
    let '(r2, w2, p2) := fill_pass8to16 utf8 r1 p1 in
    if r2 =? 0 then
      (Throw (conversion_error (GetLastError p2) ConversionFromUtf8ToUtf16
                fill_message_utf16),
       mk_Machine p2 (log m ++ steps8to16 n r1 ++ [EvGetLastError]))
    else
      (Return (store (repeat 0 (Z.to_nat r1)) w2),
       mk_Machine p2 (log m ++ steps8to16 n r1)).

End Runs.

(** ** Shapes of a run *)

(** The result of a run is all or nothing: an exception, or a string of
    exactly the measured length (the empty string for the empty source, for
    which nothing is measured). *)
Definition exact_or_nothing {A B : Type} (source : list A)
    (o : Outcome (list B)) (measured : Z) : Prop :=
  (exists e, o = Throw e) \/
  (source = [] /\ o = Return []) \/
  (source <> [] /\
   exists result, o = Return result /\ Z.of_nat (length result) = measured).

(** The calls logged between [before] and [after] are the first [k] of
    [steps], in their order, followed by nothing or, after a primitive, by the
    one call of [GetLastError] that precedes a throw. *)
Definition in_sequence (steps before after : list Event) : Prop :=
  exists (k : nat) (tail : list Event),
    after = before ++ firstn k steps ++ tail /\
    (tail = [] \/ (tail = [EvGetLastError] /\ (k = 2 \/ k = 4)%nat)).

(** A call of a primitive that asks for UTF-8 and for strict validation:
    [WC_ERR_INVALID_CHARS] towards UTF-8, [MB_ERR_INVALID_CHARS] towards
    UTF-16.  The other calls are not concerned. *)
Definition strict_call (ev : Event) : Prop :=
  match ev with
  | EvWideCharToMultiByte CodePage dwFlags _ _ _ =>
      CodePage = CP_UTF8 /\ dwFlags = WC_ERR_INVALID_CHARS
  | EvMultiByteToWideChar CodePage dwFlags _ _ _ =>
      CodePage = CP_UTF8 /\ dwFlags = MB_ERR_INVALID_CHARS
  | _ => True
  end.

(** ** Well-formed text *)

Definition is_high_surrogate (w : Z) : bool := (0xD800 <=? w) && (w <=? 0xDBFF).
Definition is_low_surrogate (w : Z) : bool := (0xDC00 <=? w) && (w <=? 0xDFFF).

(** A code unit that is a character by itself. *)
Definition is_bmp_scalar (w : Z) : bool :=
  ((0 <=? w) && (w <? 0xD800)) || ((0xE000 <=? w) && (w <=? 0xFFFF)).

(** A Unicode scalar value: a code point that is not a surrogate. *)
Definition is_scalar (c : Z) : bool :=
  ((0 <=? c) && (c <? 0xD800)) || ((0xE000 <=? c) && (c <=? 0x10FFFF)).

(** UTF-16 text made of code units that are characters by themselves and of
    high surrogates immediately followed by low surrogates. *)
Inductive WellFormed16 : list wchar_t -> Prop :=
| wf16_nil : WellFormed16 []
| wf16_unit (w : wchar_t) (s : list wchar_t) :
    is_bmp_scalar w = true -> WellFormed16 s -> WellFormed16 (w :: s)
| wf16_pair (h l : wchar_t) (s : list wchar_t) :
    is_high_surrogate h = true -> is_low_surrogate l = true ->
    WellFormed16 s -> WellFormed16 (h :: l :: s).

(** A surrogate code unit without its partner: a high surrogate that no low
    surrogate follows, or a low surrogate that no high surrogate precedes. *)
Definition has_unpaired_surrogate (s : list wchar_t) : Prop :=
  exists (pre : list wchar_t) (w : wchar_t) (post : list wchar_t),
    s = pre ++ w :: post /\
    ((is_high_surrogate w = true /\ is_low_surrogate (hd 0 post) = false) \/
     (is_low_surrogate w = true /\ is_high_surrogate (last pre 0) = false)).

Definition between (lo b hi : Z) : bool := (lo <=? b) && (b <=? hi).

(** A UTF-8 continuation byte, [10xxxxxx]. *)
Definition is_continuation (b : Z) : bool := between 0x80 b 0xBF.

(** Well-formed UTF-8 byte sequences (The Unicode Standard, table 3-7). *)
Inductive WellFormed8 : list char -> Prop :=
| wf8_nil : WellFormed8 []
| wf8_ascii (b0 : char) (s : list char) :
    between 0x00 b0 0x7F = true ->
    WellFormed8 s -> WellFormed8 (b0 :: s)
| wf8_two (b0 b1 : char) (s : list char) :
    between 0xC2 b0 0xDF = true -> between 0x80 b1 0xBF = true ->
    WellFormed8 s -> WellFormed8 (b0 :: b1 :: s)
| wf8_three_E0 (b1 b2 : char) (s : list char) :
    between 0xA0 b1 0xBF = true -> between 0x80 b2 0xBF = true ->
    WellFormed8 s -> WellFormed8 (0xE0 :: b1 :: b2 :: s)
| wf8_three_E1_EC (b0 b1 b2 : char) (s : list char) :
    between 0xE1 b0 0xEC = true ->
    between 0x80 b1 0xBF = true -> between 0x80 b2 0xBF = true ->
    WellFormed8 s -> WellFormed8 (b0 :: b1 :: b2 :: s)
| wf8_three_ED (b1 b2 : char) (s : list char) :
    between 0x80 b1 0x9F = true -> between 0x80 b2 0xBF = true ->
    WellFormed8 s -> WellFormed8 (0xED :: b1 :: b2 :: s)
| wf8_three_EE_EF (b0 b1 b2 : char) (s : list char) :
    between 0xEE b0 0xEF = true ->
    between 0x80 b1 0xBF = true -> between 0x80 b2 0xBF = true ->
    WellFormed8 s -> WellFormed8 (b0 :: b1 :: b2 :: s)
| wf8_four_F0 (b1 b2 b3 : char) (s : list char) :
    between 0x90 b1 0xBF = true -> between 0x80 b2 0xBF = true ->
    between 0x80 b3 0xBF = true ->
    WellFormed8 s -> WellFormed8 (0xF0 :: b1 :: b2 :: b3 :: s)
| wf8_four_F1_F3 (b0 b1 b2 b3 : char) (s : list char) :
    between 0xF1 b0 0xF3 = true ->
    between 0x80 b1 0xBF = true -> between 0x80 b2 0xBF = true ->
    between 0x80 b3 0xBF = true ->
    WellFormed8 s -> WellFormed8 (b0 :: b1 :: b2 :: b3 :: s)
| wf8_four_F4 (b1 b2 b3 : char) (s : list char) :
    between 0x80 b1 0x8F = true -> between 0x80 b2 0xBF = true ->
    between 0x80 b3 0xBF = true ->
    WellFormed8 s -> WellFormed8 (0xF4 :: b1 :: b2 :: b3 :: s).

(** The number of UTF-8 code units that one UTF-16 code unit stands for: a
    surrogate is half of a four-byte character. *)
Definition utf8_units (w : wchar_t) : Z :=
  if w <? 0x80 then 1
  else if w <? 0x800 then 2
  else if is_high_surrogate w || is_low_surrogate w then 2
  else 3.

Definition utf8_size (s : list wchar_t) : Z :=
  fold_right (fun w n => utf8_units w + n) 0 s.

(** ** The transcoding primitive *)

Module Reference.

(** Modelled from the spec: the last-error codes of the platform, with their
    values in [winerror.h]. *)
Definition ERROR_INVALID_PARAMETER : DWORD := 87.
Definition ERROR_INSUFFICIENT_BUFFER : DWORD := 122.
Definition ERROR_INVALID_FLAGS : DWORD := 1004.
Definition ERROR_NO_UNICODE_TRANSLATION : DWORD := 1113.

(** U+FFFD, the character a lenient conversion puts in place of malformed
    input. *)
Definition REPLACEMENT_CHARACTER : Z := 0xFFFD.

(** Modelled from the spec: the state of the platform that the conversions
    can observe, the retrievable last-error code. *)
Record Platform : Type := mk_Platform { last_error : DWORD }.

(** Modelled from the spec: the characters of a UTF-16 sequence.  In strict
    mode an unpaired surrogate rejects the input; otherwise it is replaced
    by U+FFFD. *)
Fixpoint utf16_scalars (strict : bool) (s : list wchar_t) : option (list Z) :=
  match s with
  | [] => Some []
  | w :: rest =>
      let malformed :=
        if strict then None
        else option_map (cons REPLACEMENT_CHARACTER) (utf16_scalars strict rest) in
      if is_high_surrogate w then
        match rest with
        | l :: rest' =>
            if is_low_surrogate l then
              option_map
                (cons (0x10000 + (w - 0xD800) * 0x400 + (l - 0xDC00)))
                (utf16_scalars strict rest')
            else malformed
        | [] => malformed
        end
      else if is_bmp_scalar w then
        option_map (cons w) (utf16_scalars strict rest)
      else malformed
  end.

(** Modelled from the spec: the UTF-16 code units of one character. *)
Definition utf16_encode (c : Z) : list wchar_t :=
  if c <? 0x10000 then [c]
  else [0xD800 + (c - 0x10000) / 0x400; 0xDC00 + (c - 0x10000) mod 0x400].

(** Modelled from the spec: the UTF-8 code units of one character. *)
Definition utf8_encode (c : Z) : list char :=
  if c <? 0x80 then [c]
  else if c <? 0x800 then [0xC0 + c / 0x40; 0x80 + c mod 0x40]
  else if c <? 0x10000 then
    [0xE0 + c / 0x1000; 0x80 + (c / 0x40) mod 0x40; 0x80 + c mod 0x40]
  else
    [0xF0 + c / 0x40000; 0x80 + (c / 0x1000) mod 0x40;
     0x80 + (c / 0x40) mod 0x40; 0x80 + c mod 0x40].

(** Modelled from the spec: the range of the second byte after a three-byte
    or four-byte lead, which excludes overlong forms, surrogates and code
    points above U+10FFFF. *)
Definition second_lo (b0 : Z) : Z :=
  if b0 =? 0xE0 then 0xA0 else if b0 =? 0xF0 then 0x90 else 0x80.
Definition second_hi (b0 : Z) : Z :=
  if b0 =? 0xED then 0x9F else if b0 =? 0xF4 then 0x8F else 0xBF.

(** Modelled from the spec: the characters of a UTF-8 sequence.  In strict
    mode a byte sequence that is not valid UTF-8 (overlong encodings and
    invalid continuation bytes included) rejects the input; otherwise the
    offending byte is replaced by U+FFFD. *)
Fixpoint utf8_scalars (strict : bool) (s : list char) : option (list Z) :=
  match s with
  | [] => Some []
  | b0 :: t0 =>
      let malformed :=
        if strict then None
        else option_map (cons REPLACEMENT_CHARACTER) (utf8_scalars strict t0) in
      if between 0x00 b0 0x7F then
        option_map (cons b0) (utf8_scalars strict t0)
      else if between 0xC2 b0 0xDF then
        match t0 with
        | b1 :: t1 =>
            if is_continuation b1 then
              option_map (cons ((b0 - 0xC0) * 0x40 + (b1 - 0x80)))
                (utf8_scalars strict t1)
            else malformed
        | _ => malformed
        end
      else if between 0xE0 b0 0xEF then
        match t0 with
        | b1 :: b2 :: t2 =>
            if between (second_lo b0) b1 (second_hi b0) && is_continuation b2
            then
              option_map
                (cons ((b0 - 0xE0) * 0x1000 + (b1 - 0x80) * 0x40 + (b2 - 0x80)))
                (utf8_scalars strict t2)
            else malformed
        | _ => malformed
        end
      else if between 0xF0 b0 0xF4 then
        match t0 with
        | b1 :: b2 :: b3 :: t3 =>
            if between (second_lo b0) b1 (second_hi b0)
               && is_continuation b2 && is_continuation b3
            then
              option_map
                (cons ((b0 - 0xF0) * 0x40000 + (b1 - 0x80) * 0x1000
                       + (b2 - 0x80) * 0x40 + (b3 - 0x80)))
                (utf8_scalars strict t3)
            else malformed
        | _ => malformed
        end
      else malformed
  end.

(** Modelled from the spec: a failed call returns 0, writes nothing and
    sets the last-error code. *)
Definition failure {A : Type} (code : DWORD) : Z * list A * Platform :=
  (0, [], mk_Platform code).

(** Modelled from the spec: what the primitive answers once the source has
    been read.  Malformed input fails; a count that an [int] cannot hold
    fails; a zero capacity asks for the number of output units required;
    otherwise the destination is filled and the number of units written is
    returned, unless the destination is too small.  A failure returns 0
    and sets the last-error code; a success leaves it as it was. *)
Definition deliver {A : Type} (output : option (list A))
    (destination : option (list A)) (capacity : Z) (p : Platform)
  : Z * list A * Platform :=
  match output with
  | None => failure ERROR_NO_UNICODE_TRANSLATION
  | Some units =>
      let n := Z.of_nat (length units) in
      if n >? INT_MAX then failure ERROR_INVALID_PARAMETER
      else if capacity =? 0 then (n, [], p)
      else
        match destination with
        | None => failure ERROR_INVALID_PARAMETER
        | Some _ =>
            if n >? capacity then failure ERROR_INSUFFICIENT_BUFFER
            else (n, units, p)
        end
  end.

(** Modelled from the spec: the transcoding primitive from UTF-16 to UTF-8
    (Win32 [WideCharToMultiByte]), called with an explicit source length.
    [WC_ERR_INVALID_CHARS] is the strictness flag. *)
Definition WideCharToMultiByte (CodePage : UINT) (dwFlags : DWORD)
    (lpWideCharStr : list wchar_t) (cchWideChar : Z)
    (lpMultiByteStr : option (list char)) (cbMultiByte : Z) (p : Platform)
  : Z * list char * Platform :=
  if negb (CodePage =? CP_UTF8) then failure ERROR_INVALID_PARAMETER
  else if negb ((dwFlags =? 0) || (dwFlags =? WC_ERR_INVALID_CHARS))
  then failure ERROR_INVALID_FLAGS
  else if (cchWideChar <=? 0) || (cbMultiByte <? 0)
  then failure ERROR_INVALID_PARAMETER
  else
    deliver
      (option_map (flat_map utf8_encode)
         (utf16_scalars (dwFlags =? WC_ERR_INVALID_CHARS)
            (firstn (Z.to_nat cchWideChar) lpWideCharStr)))
      lpMultiByteStr cbMultiByte p.

(** Modelled from the spec: the transcoding primitive from UTF-8 to UTF-16
    (Win32 [MultiByteToWideChar]), called with an explicit source length.
    [MB_ERR_INVALID_CHARS] is the strictness flag. *)
Definition MultiByteToWideChar (CodePage : UINT) (dwFlags : DWORD)
    (lpMultiByteStr : list char) (cbMultiByte : Z)
    (lpWideCharStr : option (list wchar_t)) (cchWideChar : Z) (p : Platform)
  : Z * list wchar_t * Platform :=
  if negb (CodePage =? CP_UTF8) then failure ERROR_INVALID_PARAMETER
  else if negb ((dwFlags =? 0) || (dwFlags =? MB_ERR_INVALID_CHARS))
  then failure ERROR_INVALID_FLAGS
  else if (cbMultiByte <=? 0) || (cchWideChar <? 0)
  then failure ERROR_INVALID_PARAMETER
  else
    deliver
      (option_map (flat_map utf16_encode)
         (utf8_scalars (dwFlags =? MB_ERR_INVALID_CHARS)
            (firstn (Z.to_nat cbMultiByte) lpMultiByteStr)))
      lpWideCharStr cchWideChar p.

(** Modelled from the spec: the primitive together with its retrievable
    last-error code. *)
#[global] Instance api : Win32API Platform :=
  Build_Win32API Platform WideCharToMultiByte MultiByteToWideChar last_error.

(** A run on this platform, from a machine that has made no call yet. *)
Definition start (code : DWORD) : Machine :=
  mk_Machine (mk_Platform code) [].

End Reference.

(** ** A platform that replays prepared answers *)

Module Scripted.

Record Answer : Type := mk_Answer {
  returned : Z;
  written : list Z;
  error : DWORD
}.

(** The answers still to give, and the last-error code. *)
Record Platform : Type := mk_Platform {
  script : list Answer;
  last_error : DWORD
}.

(** Each call of a primitive consumes the next answer; with none left the
    call fails. *)
Definition next (p : Platform) : Z * list Z * Platform :=
  match script p with
  | [] => (0, [], p)
  | a :: rest => (returned a, written a, mk_Platform rest (error a))
  end.

#[global] Instance api : Win32API Platform := {|
  WideCharToMultiByte := fun _ _ _ _ _ _ => next;
  MultiByteToWideChar := fun _ _ _ _ _ _ => next;
  GetLastError := last_error
|}.

Definition start (answers : list Answer) : Machine :=
  mk_Machine (mk_Platform answers 0) [].

End Scripted.

(** ** Further notions for runs and text *)

(** The calls that a run adds to the log it starts from. *)
Definition calls {Platform : Type} {A : Type} (before : @Machine Platform)
    (run : Outcome A * @Machine Platform) : list Event :=
  skipn (length (log before)) (log (snd run)).

(** The number of UTF-16 code units that one UTF-8 code unit stands for: a
    continuation byte belongs to the character of its lead byte, and the lead
    byte of a four-byte character stands for a surrogate pair. *)
Definition utf16_units (b : char) : Z :=
  if b <? 0x80 then 1
  else if b <? 0xC0 then 0
  else if b <? 0xF0 then 1
  else 2.

Definition utf16_size (s : list char) : Z :=
  fold_right (fun b n => utf16_units b + n) 0 s.

(** A 7-bit code unit: the same number in ASCII, UTF-8 and UTF-16. *)
Definition is_ascii (c : Z) : Prop := 0 <= c <= 0x7F.

(** The calls of a run that throws a [UnicodeConversionException] end with
    the one call of [GetLastError]; the calls of any other run have none. *)
Definition reads_last_error_on_failure_only {A : Type}
    (o : Outcome A) (evs : list Event) : Prop :=
  match o with
  | Throw (conversion_exception _) =>
      exists before, evs = before ++ [EvGetLastError] /\
                     ~ In EvGetLastError before
  | _ => ~ In EvGetLastError evs
  end.

(** [Utf8FromUtf16(Utf16FromUtf8(utf8))], the way the test
    [TestSimpleAsciiStrings] goes. *)
Definition round_trip_back {Platform : Type} {api : Win32API Platform}
    (utf8 : list char) : M (list char) :=
  bind (Utf16FromUtf8 utf8) Utf8FromUtf16.

(** ** Tactics *)

(** Turns the range tests of the hypotheses and of the goal into
    inequalities. *)
Ltac ranges :=
  unfold is_continuation, is_high_surrogate, is_low_surrogate,
    is_bmp_scalar, is_scalar, between in *;
  repeat match goal with
  | H : (_ && _)%bool = true |- _ => apply andb_true_iff in H; destruct H
  | H : (_ || _)%bool = true |- _ => apply orb_true_iff in H; destruct H
  | H : (_ && _)%bool = false |- _ => apply andb_false_iff in H; destruct H
  | H : (_ || _)%bool = false |- _ => apply orb_false_iff in H; destruct H
  | H : (_ <=? _) = true |- _ => apply Z.leb_le in H
  | H : (_ <=? _) = false |- _ => apply Z.leb_gt in H
  | H : (_ <? _) = true |- _ => apply Z.ltb_lt in H
  | H : (_ <? _) = false |- _ => apply Z.ltb_ge in H
  | H : (_ =? _) = true |- _ => apply Z.eqb_eq in H
  | H : (_ =? _) = false |- _ => apply Z.eqb_neq in H
  end.

(** Decides a range test in the goal from the inequalities at hand. *)
Ltac decide_test t :=
  let E := fresh "E" in
  destruct t eqn:E; try reflexivity; ranges; try lia.

(** Names the digits of [c] in base 64 that the goal mentions. *)
Ltac base64_digits c :=
  replace (c / 0x1000) with (c / 0x40 / 0x40)
    by (rewrite Z.div_div by lia; reflexivity);
  replace (c / 0x40000) with (c / 0x40 / 0x40 / 0x40)
    by (rewrite !Z.div_div by lia; reflexivity);
  pose proof (Z.div_mod c 0x40 ltac:(lia));
  pose proof (Z.mod_pos_bound c 0x40 ltac:(lia));
  pose proof (Z.div_mod (c / 0x40) 0x40 ltac:(lia));
  pose proof (Z.mod_pos_bound (c / 0x40) 0x40 ltac:(lia));
  pose proof (Z.div_mod (c / 0x40 / 0x40) 0x40 ltac:(lia));
  pose proof (Z.mod_pos_bound (c / 0x40 / 0x40) 0x40 ltac:(lia));
  generalize dependent (c / 0x40 / 0x40 / 0x40); intros d3;
  generalize dependent ((c / 0x40 / 0x40) mod 0x40); intros d2;
  generalize dependent (c / 0x40 / 0x40); intros q2;
  generalize dependent ((c / 0x40) mod 0x40); intros d1;
  generalize dependent (c / 0x40); intros q1;
  generalize dependent (c mod 0x40); intros d0;
  intros.

(** * Facts *)

(** ** Runs follow their paths *)

Section RunFacts.

Context {Platform : Type} {api : Win32API Platform}.

Lemma static_cast_int_small (s : Z) :
  0 <= s <= INT_MAX -> static_cast_int s = s.
Proof.
  unfold static_cast_int, INT_MAX. intros Hs.
  rewrite Z.mod_small by lia. lia.
Qed.

Lemma SafeIntFromSizet_fits (s : Z) :
  0 <= s <= INT_MAX -> SafeIntFromSizet s = Return s.
Proof.
  intros Hs. unfold SafeIntFromSizet.
  destruct (Z.gtb_spec s INT_MAX) as [Hgt|_]; [lia|].
  now rewrite static_cast_int_small.
Qed.

Lemma SafeIntFromSizet_overflow (s : Z) :
  INT_MAX < s ->
  SafeIntFromSizet s =
  Throw (overflow_error (mk_runtime_error overflow_message)).
Proof.
  intros Hs. unfold SafeIntFromSizet.
  destruct (Z.gtb_spec s INT_MAX) as [_|Hle]; [reflexivity|lia].
Qed.

Lemma store_length {A : Type} (buffer written : list A) :
  length (store buffer written) = length buffer.
Proof.
  unfold store. rewrite length_firstn, length_app, length_skipn. lia.
Qed.

Lemma store_exact {A : Type} (buffer written : list A) :
  length written = length buffer -> store buffer written = written.
Proof.
  intros Hlen. unfold store.
  rewrite skipn_all2 by lia. rewrite app_nil_r, <- Hlen.
  apply firstn_all.
Qed.

Lemma Utf8FromUtf16_overflow (utf16 : list wchar_t) (m : Machine) :
  INT_MAX < Z.of_nat (length utf16) ->
  Utf8FromUtf16 utf16 m =
  (Throw (overflow_error (mk_runtime_error overflow_message)),
   mk_Machine (platform m)
     (log m ++ [EvSafeIntFromSizet (Z.of_nat (length utf16))])).
Proof.
  intros Hlen. destruct utf16 as [|w ws]; [simpl in Hlen; unfold INT_MAX in Hlen; lia|].
  unfold Utf8FromUtf16, empty, bind, call_SafeIntFromSizet, bind, record.
  now rewrite (SafeIntFromSizet_overflow _ Hlen).
Qed.

Lemma Utf16FromUtf8_overflow (utf8 : list char) (m : Machine) :
  INT_MAX < Z.of_nat (length utf8) ->
  Utf16FromUtf8 utf8 m =
  (Throw (overflow_error (mk_runtime_error overflow_message)),
   mk_Machine (platform m)
     (log m ++ [EvSafeIntFromSizet (Z.of_nat (length utf8))])).
Proof.
  intros Hlen. destruct utf8 as [|b bs]; [simpl in Hlen; unfold INT_MAX in Hlen; lia|].
  unfold Utf16FromUtf8, empty, bind, call_SafeIntFromSizet, bind, record.
  now rewrite (SafeIntFromSizet_overflow _ Hlen).
Qed.

Lemma Utf8FromUtf16_run (utf16 : list wchar_t) (m : Machine) :
  utf16 <> [] -> Z.of_nat (length utf16) <= INT_MAX ->
  Utf8FromUtf16 utf16 m = Utf8FromUtf16_paths utf16 m.
Proof.
  intros Hne Hlen. destruct utf16 as [|w ws]; [congruence|].
  unfold Utf8FromUtf16, Utf8FromUtf16_paths, measure_pass16to8,
    fill_pass16to8, empty.
  set (n := Z.of_nat (length (w :: ws))) in *.
  unfold bind at 1. unfold call_SafeIntFromSizet, bind, record.
  rewrite SafeIntFromSizet_fits by (subst n; lia).
  unfold call_WideCharToMultiByte, bind, record. cbn [platform log is_some].
  destruct (WideCharToMultiByte CP_UTF8 WC_ERR_INVALID_CHARS (w :: ws) n
              None 0 (platform m)) as [[r1 w1] p1].
  cbn [fst snd after_call].
  destruct (r1 =? 0) eqn:Hr1.
  - unfold call_GetLastError, bind, record, throw, conversion_error.
    cbn [platform log steps16to8 firstn]. rewrite <- !app_assoc. reflexivity.
  - unfold basic_string_ctor, bind, record.
    destruct (r1 <? 0) eqn:Hneg.
    + unfold throw. cbn [platform log steps16to8 firstn].
      rewrite <- !app_assoc. reflexivity.
    + unfold ret. cbn [platform log].
      destruct (WideCharToMultiByte CP_UTF8 WC_ERR_INVALID_CHARS (w :: ws) n
                  (Some (repeat 0 (Z.to_nat r1))) r1 p1) as [[r2 w2] p2].
      cbn [fst snd after_call].
      destruct (r2 =? 0) eqn:Hr2.
      * unfold call_GetLastError, bind, record, throw, conversion_error.
        cbn [platform log steps16to8].
        rewrite <- !app_assoc. reflexivity.
      * cbn [platform log steps16to8]. rewrite <- !app_assoc. reflexivity.
Qed.

Lemma Utf16FromUtf8_run (utf8 : list char) (m : Machine) :
  utf8 <> [] -> Z.of_nat (length utf8) <= INT_MAX ->
  Utf16FromUtf8 utf8 m = Utf16FromUtf8_paths utf8 m.
Proof.
  intros Hne Hlen. destruct utf8 as [|b bs]; [congruence|].
  unfold Utf16FromUtf8, Utf16FromUtf8_paths, measure_pass8to16,
    fill_pass8to16, empty.
  set (n := Z.of_nat (length (b :: bs))) in *.
  unfold bind at 1. unfold call_SafeIntFromSizet, bind, record.
  rewrite SafeIntFromSizet_fits by (subst n; lia).
  unfold call_MultiByteToWideChar, bind, record. cbn [platform log is_some].
  destruct (MultiByteToWideChar CP_UTF8 MB_ERR_INVALID_CHARS (b :: bs) n
              None 0 (platform m)) as [[r1 w1] p1].
  cbn [fst snd after_call].
  destruct (r1 =? 0) eqn:Hr1.
  - unfold call_GetLastError, bind, record, throw, conversion_error.
    cbn [platform log steps8to16 firstn]. rewrite <- !app_assoc. reflexivity.
  - unfold basic_string_ctor, bind, record.
    destruct (r1 <? 0) eqn:Hneg.
    + unfold throw. cbn [platform log steps8to16 firstn].
      rewrite <- !app_assoc. reflexivity.
    + unfold ret. cbn [platform log].
      destruct (MultiByteToWideChar CP_UTF8 MB_ERR_INVALID_CHARS (b :: bs) n
                  (Some (repeat 0 (Z.to_nat r1))) r1 p1) as [[r2 w2] p2].
      cbn [fst snd after_call].
      destruct (r2 =? 0) eqn:Hr2.
      * unfold call_GetLastError, bind, record, throw, conversion_error.
        cbn [platform log steps8to16].
        rewrite <- !app_assoc. reflexivity.
      * cbn [platform log steps8to16]. rewrite <- !app_assoc. reflexivity.
Qed.

End RunFacts.

(** ** The exception class and the length cast *)

Lemma c_str_without_nul (s : string) : has_nul s = false -> c_str s = s.
Proof.
  induction s as [|c rest IH]; [reflexivity|].
  cbn [has_nul c_str]. intros H. apply orb_false_iff in H as [Hc Hrest].
  now rewrite Hc, (IH Hrest).
Qed.

(** C9, for what [what()] can report: an exception object only carries what
    it was constructed with.  [GetErrorCode] gives back the error code,
    [GetConversionType] the direction, and [what()] the message read as a C
    string: the whole message when it holds no NUL character, as any message
    given through the [const char*] overload. *)
Theorem exception_carries_its_data
    (errorCode : DWORD) (conversionType : ConversionType) (message : string) :
  let e := UnicodeConversionException_ctor errorCode conversionType message in
  GetErrorCode e = errorCode /\
  GetConversionType e = conversionType /\
  what_of e = c_str message /\
  (has_nul message = false -> what_of e = message).
Proof.
  cbv zeta. repeat split. intros Hnul. now apply c_str_without_nul.
Qed.

Lemma exception_carries_its_data_witness :
  what_of (UnicodeConversionException_ctor 1113 ConversionFromUtf16ToUtf8
             "Can't get result UTF-8 string length (WideCharToMultiByte failed).") =
  "Can't get result UTF-8 string length (WideCharToMultiByte failed)."%string.
Proof.
  apply (exception_carries_its_data 1113 ConversionFromUtf16ToUtf8
           "Can't get result UTF-8 string length (WideCharToMultiByte failed).").
  reflexivity.
Defined.

(** C9 as stated fails on a message with a NUL inside, which the
    [std::string] overload of the constructor accepts: of the five
    characters 'a' 'b' NUL 'c' 'd', [what()] reports "ab". *)
Lemma message_is_cut_at_nul :
  what_of (UnicodeConversionException_ctor 87 ConversionFromUtf8ToUtf16
             (String "a" (String "b" (String Ascii.zero
                (String "c" (String "d" EmptyString)))))) = "ab"%string /\
  what_of (UnicodeConversionException_ctor 87 ConversionFromUtf8ToUtf16
             (String "a" (String "b" (String Ascii.zero
                (String "c" (String "d" EmptyString)))))) <>
  String "a" (String "b" (String Ascii.zero
    (String "c" (String "d" EmptyString)))).
Proof. split; [reflexivity | discriminate]. Qed.

(** C4: for a length [s], [SafeIntFromSizet] throws exactly when [s] is above
    [INT_MAX], and returns [s] itself otherwise; what it throws is
    [std::overflow_error], never a [UnicodeConversionException]. *)
Theorem SafeIntFromSizet_checked (s : Z) :
  0 <= s ->
  (INT_MAX < s <-> exists e, SafeIntFromSizet s = Throw e) /\
  (s <= INT_MAX <-> SafeIntFromSizet s = Return s) /\
  (forall e, SafeIntFromSizet s = Throw e ->
     e = overflow_error (mk_runtime_error overflow_message) /\
     forall u, e <> conversion_exception u).
Proof.
  intros Hs. destruct (Z_lt_le_dec INT_MAX s) as [Hbig|Hfit].
  - rewrite (SafeIntFromSizet_overflow s Hbig). repeat split.
    + intros _. eexists. reflexivity.
    + intros _. exact Hbig.
    + lia.
    + discriminate.
    + congruence.
    + intros u Hu. injection H as <-. discriminate.
  - rewrite (SafeIntFromSizet_fits s (conj Hs Hfit)). repeat split.
    + lia.
    + intros [e He]. discriminate.
    + intros _. exact Hfit.
    + discriminate.
    + discriminate.
Qed.

Lemma SafeIntFromSizet_checked_witness :
  0 <= 2147483648 /\
  ((INT_MAX < 2147483648 <-> exists e, SafeIntFromSizet 2147483648 = Throw e) /\
   (2147483648 <= INT_MAX <-> SafeIntFromSizet 2147483648 = Return 2147483648) /\
   (forall e, SafeIntFromSizet 2147483648 = Throw e ->
      e = overflow_error (mk_runtime_error overflow_message) /\
      forall u, e <> conversion_exception u)).
Proof.
  split; [lia | apply (SafeIntFromSizet_checked 2147483648); lia].
Defined.

(** ** The conversions on any platform *)

Section ConversionFacts.

Context {Platform : Type} {api : Win32API Platform}.

(** C3: on the empty input both conversions return the empty string and
    leave the machine as it was: no call is logged, neither of the length
    cast nor of a primitive, and the platform is untouched. *)
Theorem empty_input_returns_at_once (m : Machine) :
  Utf8FromUtf16 [] m = (Return [], m) /\
  Utf16FromUtf8 [] m = (Return [], m).
Proof. split; reflexivity. Qed.

Lemma repeat_store_length (r : Z) (written : list Z) :
  0 <= r ->
  Z.of_nat (length (store (repeat 0 (Z.to_nat r)) written)) = r.
Proof.
  intros Hr. rewrite store_length, repeat_length. lia.
Qed.

(** C6: a conversion never succeeds in part.  Either it throws, and
    there is no result, or it returns a string whose length is exactly the
    count that the measure pass reported (the empty string for the empty
    source, for which there is no measure pass). *)
Theorem no_partial_success :
  (forall (utf16 : list wchar_t) (m : Machine),
     exact_or_nothing utf16 (fst (Utf8FromUtf16 utf16 m))
       (fst (fst (measure_pass16to8 utf16 (platform m))))) /\
  (forall (utf8 : list char) (m : Machine),
     exact_or_nothing utf8 (fst (Utf16FromUtf8 utf8 m))
       (fst (fst (measure_pass8to16 utf8 (platform m))))).
Proof.
  split.
  - intros utf16 m. unfold exact_or_nothing.
    destruct utf16 as [|w ws]; [right; left; split; reflexivity|].
    destruct (Z_lt_le_dec INT_MAX (Z.of_nat (length (w :: ws)))) as [Hbig|Hfit].
    + rewrite (Utf8FromUtf16_overflow _ m Hbig). left. eexists. reflexivity.
    + rewrite Utf8FromUtf16_run by (congruence || exact Hfit).
      unfold Utf8FromUtf16_paths.
      destruct (measure_pass16to8 (w :: ws) (platform m)) as [[r1 w1] p1].
      cbn [fst].
      destruct (r1 =? 0); [left; eexists; reflexivity|].
      destruct (Z.ltb_spec r1 0) as [Hneg|Hpos]; [left; eexists; reflexivity|].
      destruct (fill_pass16to8 (w :: ws) r1 p1) as [[r2 w2] p2].
      destruct (r2 =? 0); [left; eexists; reflexivity|].
      right; right. split; [congruence|]. eexists. split; [reflexivity|].
      now apply repeat_store_length.
  - intros utf8 m. unfold exact_or_nothing.
    destruct utf8 as [|b bs]; [right; left; split; reflexivity|].
    destruct (Z_lt_le_dec INT_MAX (Z.of_nat (length (b :: bs)))) as [Hbig|Hfit].
    + rewrite (Utf16FromUtf8_overflow _ m Hbig). left. eexists. reflexivity.
    + rewrite Utf16FromUtf8_run by (congruence || exact Hfit).
      unfold Utf16FromUtf8_paths.
      destruct (measure_pass8to16 (b :: bs) (platform m)) as [[r1 w1] p1].
      cbn [fst].
      destruct (r1 =? 0); [left; eexists; reflexivity|].
      destruct (Z.ltb_spec r1 0) as [Hneg|Hpos]; [left; eexists; reflexivity|].
      destruct (fill_pass8to16 (b :: bs) r1 p1) as [[r2 w2] p2].
      destruct (r2 =? 0); [left; eexists; reflexivity|].
      right; right. split; [congruence|]. eexists. split; [reflexivity|].
      now apply repeat_store_length.
Qed.

Lemma Utf8FromUtf16_sequence (utf16 : list wchar_t) (m : Machine) :
  in_sequence
    (steps16to8 (Z.of_nat (length utf16))
       (fst (fst (measure_pass16to8 utf16 (platform m)))))
    (log m) (log (snd (Utf8FromUtf16 utf16 m))) /\
  (forall e, fst (Utf8FromUtf16 utf16 m) = Throw (overflow_error e) ->
     log (snd (Utf8FromUtf16 utf16 m)) =
       log m ++ [EvSafeIntFromSizet (Z.of_nat (length utf16))] /\
     platform (snd (Utf8FromUtf16 utf16 m)) = platform m).
Proof.
  unfold in_sequence.
  destruct utf16 as [|w ws].
  - split; [|discriminate].
    exists 0%nat, []. split; [now rewrite !app_nil_r | now left].
  - destruct (Z_lt_le_dec INT_MAX (Z.of_nat (length (w :: ws)))) as [Hbig|Hfit].
    + rewrite (Utf8FromUtf16_overflow _ m Hbig). cbn [fst snd log platform].
      split; [|intros _ _; split; reflexivity].
      exists 1%nat, []. split; [now rewrite app_nil_r | now left].
    + rewrite Utf8FromUtf16_run by (congruence || exact Hfit).
      unfold Utf8FromUtf16_paths.
      destruct (measure_pass16to8 (w :: ws) (platform m)) as [[r1 w1] p1].
      cbn [fst].
      destruct (r1 =? 0).
      { split; [|discriminate]. exists 2%nat, [EvGetLastError].
        split; [reflexivity | right; split; [reflexivity | now left]]. }
      destruct (r1 <? 0).
      { split; [|discriminate]. exists 3%nat, [].
        split; [now rewrite app_nil_r | now left]. }
      destruct (fill_pass16to8 (w :: ws) r1 p1) as [[r2 w2] p2].
      destruct (r2 =? 0).
      { split; [|discriminate]. exists 4%nat, [EvGetLastError].
        split; [reflexivity | right; split; [reflexivity | now right]]. }
      split; [|discriminate]. exists 4%nat, [].
      split; [now rewrite app_nil_r | now left].
Qed.

Lemma Utf16FromUtf8_sequence (utf8 : list char) (m : Machine) :
  in_sequence
    (steps8to16 (Z.of_nat (length utf8))
       (fst (fst (measure_pass8to16 utf8 (platform m)))))
    (log m) (log (snd (Utf16FromUtf8 utf8 m))) /\
  (forall e, fst (Utf16FromUtf8 utf8 m) = Throw (overflow_error e) ->
     log (snd (Utf16FromUtf8 utf8 m)) =
       log m ++ [EvSafeIntFromSizet (Z.of_nat (length utf8))] /\
     platform (snd (Utf16FromUtf8 utf8 m)) = platform m).
Proof.
  unfold in_sequence.
  destruct utf8 as [|b bs].
  - split; [|discriminate].
    exists 0%nat, []. split; [now rewrite !app_nil_r | now left].
  - destruct (Z_lt_le_dec INT_MAX (Z.of_nat (length (b :: bs)))) as [Hbig|Hfit].
    + rewrite (Utf16FromUtf8_overflow _ m Hbig). cbn [fst snd log platform].
      split; [|intros _ _; split; reflexivity].
      exists 1%nat, []. split; [now rewrite app_nil_r | now left].
    + rewrite Utf16FromUtf8_run by (congruence || exact Hfit).
      unfold Utf16FromUtf8_paths.
      destruct (measure_pass8to16 (b :: bs) (platform m)) as [[r1 w1] p1].
      cbn [fst].
      destruct (r1 =? 0).
      { split; [|discriminate]. exists 2%nat, [EvGetLastError].
        split; [reflexivity | right; split; [reflexivity | now left]]. }
      destruct (r1 <? 0).
      { split; [|discriminate]. exists 3%nat, [].
        split; [now rewrite app_nil_r | now left]. }
      destruct (fill_pass8to16 (b :: bs) r1 p1) as [[r2 w2] p2].
      destruct (r2 =? 0).
      { split; [|discriminate]. exists 4%nat, [EvGetLastError].
        split; [reflexivity | right; split; [reflexivity | now right]]. }
      split; [|discriminate]. exists 4%nat, [].
      split; [now rewrite app_nil_r | now left].
Qed.

(** C7: the calls of a run are an initial part of the sequence length
    cast, measure pass, allocation, fill pass, in this order (followed by
    one [GetLastError] when a pass has failed); and when the length cast
    throws its overflow error, the cast is the only call of the run and
    the platform has not been touched. *)
Theorem steps_in_fixed_order :
  (forall (utf16 : list wchar_t) (m : Machine),
     in_sequence
       (steps16to8 (Z.of_nat (length utf16))
          (fst (fst (measure_pass16to8 utf16 (platform m)))))
       (log m) (log (snd (Utf8FromUtf16 utf16 m))) /\
     (forall e, fst (Utf8FromUtf16 utf16 m) = Throw (overflow_error e) ->
        log (snd (Utf8FromUtf16 utf16 m)) =
          log m ++ [EvSafeIntFromSizet (Z.of_nat (length utf16))] /\
        platform (snd (Utf8FromUtf16 utf16 m)) = platform m)) /\
  (forall (utf8 : list char) (m : Machine),
     in_sequence
       (steps8to16 (Z.of_nat (length utf8))
          (fst (fst (measure_pass8to16 utf8 (platform m)))))
       (log m) (log (snd (Utf16FromUtf8 utf8 m))) /\
     (forall e, fst (Utf16FromUtf8 utf8 m) = Throw (overflow_error e) ->
        log (snd (Utf16FromUtf8 utf8 m)) =
          log m ++ [EvSafeIntFromSizet (Z.of_nat (length utf8))] /\
        platform (snd (Utf16FromUtf8 utf8 m)) = platform m)).
Proof.
  split; [exact Utf8FromUtf16_sequence | exact Utf16FromUtf8_sequence].
Qed.

(** C10: the return value of the fill pass is only compared with zero.
    When it is a non-zero count other than the measured one, the
    conversion still returns, and its result has the measured length. *)
Theorem fill_count_not_compared :
  (forall (utf16 : list wchar_t) (m : Machine) r1 w1 p1 r2 w2 p2,
     utf16 <> [] -> Z.of_nat (length utf16) <= INT_MAX ->
     measure_pass16to8 utf16 (platform m) = (r1, w1, p1) -> 0 < r1 ->
     fill_pass16to8 utf16 r1 p1 = (r2, w2, p2) -> r2 <> 0 -> r2 <> r1 ->
     exists utf8,
       fst (Utf8FromUtf16 utf16 m) = Return utf8 /\
       Z.of_nat (length utf8) = r1) /\
  (forall (utf8 : list char) (m : Machine) r1 w1 p1 r2 w2 p2,
     utf8 <> [] -> Z.of_nat (length utf8) <= INT_MAX ->
     measure_pass8to16 utf8 (platform m) = (r1, w1, p1) -> 0 < r1 ->
     fill_pass8to16 utf8 r1 p1 = (r2, w2, p2) -> r2 <> 0 -> r2 <> r1 ->
     exists utf16,
       fst (Utf16FromUtf8 utf8 m) = Return utf16 /\
       Z.of_nat (length utf16) = r1).
Proof.
  split.
  - intros utf16 m r1 w1 p1 r2 w2 p2 Hne Hlen Hm Hr1 Hf Hr2 _.
    rewrite Utf8FromUtf16_run by assumption.
    unfold Utf8FromUtf16_paths. rewrite Hm.
    destruct (Z.eqb_spec r1 0) as [?|_]; [lia|].
    destruct (Z.ltb_spec r1 0) as [?|_]; [lia|].
    rewrite Hf. destruct (Z.eqb_spec r2 0) as [?|_]; [contradiction|].
    eexists. split; [reflexivity|]. apply repeat_store_length. lia.
  - intros utf8 m r1 w1 p1 r2 w2 p2 Hne Hlen Hm Hr1 Hf Hr2 _.
    rewrite Utf16FromUtf8_run by assumption.
    unfold Utf16FromUtf8_paths. rewrite Hm.
    destruct (Z.eqb_spec r1 0) as [?|_]; [lia|].
    destruct (Z.ltb_spec r1 0) as [?|_]; [lia|].
    rewrite Hf. destruct (Z.eqb_spec r2 0) as [?|_]; [contradiction|].
    eexists. split; [reflexivity|]. apply repeat_store_length. lia.
Qed.

(** C5, with the messages of the code: when a pass of the primitive
    returns zero, the conversion throws a [UnicodeConversionException]
    that carries the direction of the conversion and the last-error code
    of the platform as it is right after the failed call; its message is
    the one of the failed pass. *)
Theorem zero_return_throws :
  (forall (utf16 : list wchar_t) (m : Machine) w1 p1,
     utf16 <> [] -> Z.of_nat (length utf16) <= INT_MAX ->
     measure_pass16to8 utf16 (platform m) = (0, w1, p1) ->
     fst (Utf8FromUtf16 utf16 m) =
     Throw (conversion_error (GetLastError p1) ConversionFromUtf16ToUtf8
              "Can't get result UTF-8 string length (WideCharToMultiByte failed).")) /\
  (forall (utf16 : list wchar_t) (m : Machine) r1 w1 p1 w2 p2,
     utf16 <> [] -> Z.of_nat (length utf16) <= INT_MAX ->
     measure_pass16to8 utf16 (platform m) = (r1, w1, p1) -> 0 < r1 ->
     fill_pass16to8 utf16 r1 p1 = (0, w2, p2) ->
     fst (Utf8FromUtf16 utf16 m) =
     Throw (conversion_error (GetLastError p2) ConversionFromUtf16ToUtf8
              "Can't convert from UTF-16 to UTF-8 string (WideCharToMultiByte failed).")) /\
  (forall (utf8 : list char) (m : Machine) w1 p1,
     utf8 <> [] -> Z.of_nat (length utf8) <= INT_MAX ->
     measure_pass8to16 utf8 (platform m) = (0, w1, p1) ->
     fst (Utf16FromUtf8 utf8 m) =
     Throw (conversion_error (GetLastError p1) ConversionFromUtf8ToUtf16
              "Can't get result UTF-16 string length (MultiByteToWideChar failed).")) /\
  (forall (utf8 : list char) (m : Machine) r1 w1 p1 w2 p2,
     utf8 <> [] -> Z.of_nat (length utf8) <= INT_MAX ->
     measure_pass8to16 utf8 (platform m) = (r1, w1, p1) -> 0 < r1 ->
     fill_pass8to16 utf8 r1 p1 = (0, w2, p2) ->
     fst (Utf16FromUtf8 utf8 m) =
     Throw (conversion_error (GetLastError p2) ConversionFromUtf8ToUtf16
              "Can't convert from UTF-8 to UTF-16 string (MultiByteToWideChar failed).")).
Proof.
  repeat split.
  - intros utf16 m w1 p1 Hne Hlen Hm.
    rewrite Utf8FromUtf16_run by assumption.
    unfold Utf8FromUtf16_paths. rewrite Hm. reflexivity.
  - intros utf16 m r1 w1 p1 w2 p2 Hne Hlen Hm Hr1 Hf.
    rewrite Utf8FromUtf16_run by assumption.
    unfold Utf8FromUtf16_paths. rewrite Hm.
    destruct (Z.eqb_spec r1 0) as [?|_]; [lia|].
    destruct (Z.ltb_spec r1 0) as [?|_]; [lia|].
    rewrite Hf. reflexivity.
  - intros utf8 m w1 p1 Hne Hlen Hm.
    rewrite Utf16FromUtf8_run by assumption.
    unfold Utf16FromUtf8_paths. rewrite Hm. reflexivity.
  - intros utf8 m r1 w1 p1 w2 p2 Hne Hlen Hm Hr1 Hf.
    rewrite Utf16FromUtf8_run by assumption.
    unfold Utf16FromUtf8_paths. rewrite Hm.
    destruct (Z.eqb_spec r1 0) as [?|_]; [lia|].
    destruct (Z.ltb_spec r1 0) as [?|_]; [lia|].
    rewrite Hf. reflexivity.
Qed.

End ConversionFacts.

(** ** The transcoding primitive: characters and code units *)

(** On the reference platform the passes are calls of its primitive. *)
Lemma measure_pass16to8_reference (s : list Z) (p : Reference.Platform) :
  measure_pass16to8 s p =
  Reference.WideCharToMultiByte CP_UTF8 WC_ERR_INVALID_CHARS s
    (Z.of_nat (length s)) None 0 p.
Proof. reflexivity. Qed.

Lemma fill_pass16to8_reference (s : list Z) (n : Z) (p : Reference.Platform) :
  fill_pass16to8 s n p =
  Reference.WideCharToMultiByte CP_UTF8 WC_ERR_INVALID_CHARS s
    (Z.of_nat (length s)) (Some (repeat 0 (Z.to_nat n))) n p.
Proof. reflexivity. Qed.

Lemma measure_pass8to16_reference (s : list Z) (p : Reference.Platform) :
  measure_pass8to16 s p =
  Reference.MultiByteToWideChar CP_UTF8 MB_ERR_INVALID_CHARS s
    (Z.of_nat (length s)) None 0 p.
Proof. reflexivity. Qed.

Lemma fill_pass8to16_reference (s : list Z) (n : Z) (p : Reference.Platform) :
  fill_pass8to16 s n p =
  Reference.MultiByteToWideChar CP_UTF8 MB_ERR_INVALID_CHARS s
    (Z.of_nat (length s)) (Some (repeat 0 (Z.to_nat n))) n p.
Proof. reflexivity. Qed.

Module ReferenceFacts.
Import Reference.

Lemma between_true (lo b hi : Z) : lo <= b <= hi -> between lo b hi = true.
Proof.
  intros H. unfold between.
  apply andb_true_iff. split; apply Z.leb_le; lia.
Qed.

Lemma between_false (lo b hi : Z) :
  b < lo \/ hi < b -> between lo b hi = false.
Proof.
  intros H. unfold between.
  apply andb_false_iff. destruct H; [left | right]; apply Z.leb_gt; lia.
Qed.

Lemma high_not_bmp (w : Z) :
  is_high_surrogate w = true -> is_bmp_scalar w = false.
Proof. intros H. decide_test (is_bmp_scalar w). Qed.

Lemma bmp_not_high (w : Z) :
  is_bmp_scalar w = true -> is_high_surrogate w = false.
Proof. intros H. decide_test (is_high_surrogate w). Qed.

Lemma bmp_not_low (w : Z) :
  is_bmp_scalar w = true -> is_low_surrogate w = false.
Proof. intros H. decide_test (is_low_surrogate w). Qed.

Lemma low_not_high (w : Z) :
  is_low_surrogate w = true -> is_high_surrogate w = false.
Proof. intros H. decide_test (is_high_surrogate w). Qed.

(** One step of the strict UTF-16 reader. *)
Lemma utf16_scalars_unit (w : Z) (s : list Z) :
  is_bmp_scalar w = true ->
  utf16_scalars true (w :: s) = option_map (cons w) (utf16_scalars true s).
Proof.
  intros H. cbn [utf16_scalars]. now rewrite (bmp_not_high w H), H.
Qed.

Lemma utf16_scalars_pair (h l : Z) (s : list Z) :
  is_high_surrogate h = true -> is_low_surrogate l = true ->
  utf16_scalars true (h :: l :: s) =
  option_map (cons (0x10000 + (h - 0xD800) * 0x400 + (l - 0xDC00)))
    (utf16_scalars true s).
Proof.
  intros Hh Hl.
  change (utf16_scalars true (h :: l :: s)) with
    (if is_high_surrogate h then
       if is_low_surrogate l then
         option_map (cons (0x10000 + (h - 0xD800) * 0x400 + (l - 0xDC00)))
           (utf16_scalars true s)
       else None
     else if is_bmp_scalar h
          then option_map (cons h) (utf16_scalars true (l :: s)) else None).
  now rewrite Hh, Hl.
Qed.

Lemma utf16_encode_unit (w : Z) :
  is_bmp_scalar w = true -> utf16_encode w = [w].
Proof.
  intros H. unfold utf16_encode. decide_test (w <? 0x10000).
Qed.

Lemma utf16_encode_pair (h l : Z) :
  is_high_surrogate h = true -> is_low_surrogate l = true ->
  utf16_encode (0x10000 + (h - 0xD800) * 0x400 + (l - 0xDC00)) = [h; l].
Proof.
  intros Hh Hl. unfold utf16_encode. ranges.
  destruct (Z.ltb_spec (0x10000 + (h - 0xD800) * 0x400 + (l - 0xDC00)) 0x10000)
    as [Hlt|_]; [lia|].
  replace (0x10000 + (h - 0xD800) * 0x400 + (l - 0xDC00) - 0x10000)
    with ((l - 0xDC00) + (h - 0xD800) * 0x400) by lia.
  rewrite Z.div_add, Z.mod_add by lia.
  rewrite Z.div_small, Z.mod_small by lia.
  f_equal; [lia | f_equal; lia].
Qed.

Lemma utf8_encode_length (c : Z) :
  Z.of_nat (length (utf8_encode c)) =
  if c <? 0x80 then 1 else if c <? 0x800 then 2
  else if c <? 0x10000 then 3 else 4.
Proof.
  unfold utf8_encode.
  destruct (c <? 0x80); [reflexivity|].
  destruct (c <? 0x800); [reflexivity|].
  destruct (c <? 0x10000); reflexivity.
Qed.

Lemma utf8_units_unit (w : Z) :
  is_bmp_scalar w = true ->
  Z.of_nat (length (utf8_encode w)) = utf8_units w.
Proof.
  intros H. rewrite utf8_encode_length. unfold utf8_units.
  rewrite (bmp_not_high w H), (bmp_not_low w H). cbn [orb].
  destruct (w <? 0x80); [reflexivity|].
  destruct (w <? 0x800); [reflexivity|].
  decide_test (w <? 0x10000).
Qed.

Lemma utf8_units_pair (h l : Z) :
  is_high_surrogate h = true -> is_low_surrogate l = true ->
  Z.of_nat
    (length (utf8_encode (0x10000 + (h - 0xD800) * 0x400 + (l - 0xDC00)))) =
  utf8_units h + utf8_units l.
Proof.
  intros Hh Hl. rewrite utf8_encode_length. unfold utf8_units.
  rewrite Hh, Hl, orb_true_r. cbn [orb]. ranges.
  repeat match goal with
  | |- context [ ?a <? ?b ] => destruct (Z.ltb_spec a b); try lia
  end.
Qed.

Lemma utf8_units_positive (w : Z) : 1 <= utf8_units w.
Proof.
  unfold utf8_units.
  destruct (w <? 0x80); [lia|]. destruct (w <? 0x800); [lia|].
  destruct (is_high_surrogate w || is_low_surrogate w)%bool; lia.
Qed.

Lemma utf8_size_cons (w : Z) (s : list Z) :
  utf8_size (w :: s) = utf8_units w + utf8_size s.
Proof. reflexivity. Qed.

Lemma utf8_size_length (s : list Z) : Z.of_nat (length s) <= utf8_size s.
Proof.
  induction s as [|w s IH]; [reflexivity|].
  rewrite utf8_size_cons. pose proof (utf8_units_positive w).
  cbn [length]. lia.
Qed.

(** The characters of well-formed UTF-16: reading is total, every
    character is a scalar value, writing them back gives the code units
    again, and their UTF-8 form has [utf8_size] code units. *)
Lemma utf16_scalars_well_formed (s : list wchar_t) :
  WellFormed16 s ->
  exists cs,
    utf16_scalars true s = Some cs /\
    Forall (fun c => is_scalar c = true) cs /\
    flat_map utf16_encode cs = s /\
    Z.of_nat (length (flat_map utf8_encode cs)) = utf8_size s.
Proof.
  induction 1 as [|w s Hw Hs IH|h l s Hh Hl Hs IH].
  - exists []. repeat split. constructor.
  - destruct IH as (cs & Hdec & Hsc & Henc & Hlen).
    exists (w :: cs). rewrite (utf16_scalars_unit w s Hw), Hdec.
    repeat split.
    + constructor; [|exact Hsc]. clear - Hw. decide_test (is_scalar w).
    + cbn [flat_map]. now rewrite (utf16_encode_unit w Hw), Henc.
    + cbn [flat_map]. rewrite length_app, Nat2Z.inj_add, Hlen.
      now rewrite (utf8_units_unit w Hw).
  - destruct IH as (cs & Hdec & Hsc & Henc & Hlen).
    exists (0x10000 + (h - 0xD800) * 0x400 + (l - 0xDC00) :: cs).
    rewrite (utf16_scalars_pair h l s Hh Hl), Hdec.
    repeat split.
    + constructor; [|exact Hsc]. clear - Hh Hl.
      decide_test (is_scalar (0x10000 + (h - 0xD800) * 0x400 + (l - 0xDC00))).
    + cbn [flat_map]. now rewrite (utf16_encode_pair h l Hh Hl), Henc.
    + cbn [flat_map]. rewrite length_app, Nat2Z.inj_add, Hlen.
      rewrite (utf8_units_pair h l Hh Hl). rewrite !utf8_size_cons. lia.
Qed.

(** One step of the strict UTF-8 reader, for each length of character. *)
Lemma utf8_scalars_one (b0 : Z) (t : list Z) :
  between 0x00 b0 0x7F = true ->
  utf8_scalars true (b0 :: t) = option_map (cons b0) (utf8_scalars true t).
Proof.
  intros H0. cbn [utf8_scalars]. now rewrite H0.
Qed.

Lemma utf8_scalars_two (b0 b1 : Z) (t : list Z) :
  between 0xC2 b0 0xDF = true -> is_continuation b1 = true ->
  utf8_scalars true (b0 :: b1 :: t) =
  option_map (cons ((b0 - 0xC0) * 0x40 + (b1 - 0x80))) (utf8_scalars true t).
Proof.
  intros H0 H1.
  assert (Ha : between 0x00 b0 0x7F = false)
    by (apply between_false; ranges; lia).
  cbn [utf8_scalars]. now rewrite Ha, H0, H1.
Qed.

Lemma utf8_scalars_three (b0 b1 b2 : Z) (t : list Z) :
  between 0xE0 b0 0xEF = true ->
  between (second_lo b0) b1 (second_hi b0) = true ->
  is_continuation b2 = true ->
  utf8_scalars true (b0 :: b1 :: b2 :: t) =
  option_map
    (cons ((b0 - 0xE0) * 0x1000 + (b1 - 0x80) * 0x40 + (b2 - 0x80)))
    (utf8_scalars true t).
Proof.
  intros H0 H1 H2.
  assert (Ha : between 0x00 b0 0x7F = false)
    by (apply between_false; ranges; lia).
  assert (Hb : between 0xC2 b0 0xDF = false)
    by (apply between_false; ranges; lia).
  cbn [utf8_scalars]. now rewrite Ha, Hb, H0, H1, H2.
Qed.

Lemma utf8_scalars_four (b0 b1 b2 b3 : Z) (t : list Z) :
  between 0xF0 b0 0xF4 = true ->
  between (second_lo b0) b1 (second_hi b0) = true ->
  is_continuation b2 = true -> is_continuation b3 = true ->
  utf8_scalars true (b0 :: b1 :: b2 :: b3 :: t) =
  option_map
    (cons ((b0 - 0xF0) * 0x40000 + (b1 - 0x80) * 0x1000
           + (b2 - 0x80) * 0x40 + (b3 - 0x80)))
    (utf8_scalars true t).
Proof.
  intros H0 H1 H2 H3.
  assert (Ha : between 0x00 b0 0x7F = false)
    by (apply between_false; ranges; lia).
  assert (Hb : between 0xC2 b0 0xDF = false)
    by (apply between_false; ranges; lia).
  assert (Hc : between 0xE0 b0 0xEF = false)
    by (apply between_false; ranges; lia).
  cbn [utf8_scalars]. now rewrite Ha, Hb, Hc, H0, H1, H2, H3.
Qed.

(** Reading the UTF-8 form of a scalar value gives the scalar value. *)
Lemma utf8_scalars_encode (c : Z) (t : list Z) :
  is_scalar c = true ->
  utf8_scalars true (utf8_encode c ++ t) =
  option_map (cons c) (utf8_scalars true t).
Proof.
  intros Hc.
  assert (Hrange : 0 <= c < 0xD800 \/ 0xE000 <= c <= 0x10FFFF)
    by (ranges; lia).
  clear Hc. unfold utf8_encode.
  destruct (Z.ltb_spec c 0x80) as [H1|H1].
  { cbn [app]. rewrite utf8_scalars_one by (apply between_true; lia).
    reflexivity. }
  destruct (Z.ltb_spec c 0x800) as [H2|H2].
  { cbn [app]. base64_digits c.
    rewrite utf8_scalars_two
      by (unfold is_continuation; apply between_true; lia).
    do 2 f_equal. lia. }
  destruct (Z.ltb_spec c 0x10000) as [H3|H3].
  { cbn [app]. base64_digits c.
    rewrite utf8_scalars_three.
    - do 2 f_equal. lia.
    - apply between_true; lia.
    - unfold second_lo, second_hi.
      repeat match goal with
      | |- context [ ?a =? ?b ] => destruct (Z.eqb_spec a b)
      end; apply between_true; lia.
    - unfold is_continuation; apply between_true; lia. }
  cbn [app]. base64_digits c.
  rewrite utf8_scalars_four.
  - do 2 f_equal. lia.
  - apply between_true; lia.
  - unfold second_lo, second_hi.
    repeat match goal with
    | |- context [ ?a =? ?b ] => destruct (Z.eqb_spec a b)
    end; apply between_true; lia.
  - unfold is_continuation; apply between_true; lia.
  - unfold is_continuation; apply between_true; lia.
Qed.

Lemma utf8_scalars_encode_all (cs : list Z) :
  Forall (fun c => is_scalar c = true) cs ->
  utf8_scalars true (flat_map utf8_encode cs) = Some cs.
Proof.
  induction 1 as [|c cs Hc Hcs IH]; [reflexivity|].
  cbn [flat_map]. now rewrite (utf8_scalars_encode c _ Hc), IH.
Qed.

(** What the strict UTF-16 reader accepts is well-formed. *)
Lemma utf16_scalars_strict_bounded (n : nat) :
  forall (s cs : list Z),
    (length s <= n)%nat -> utf16_scalars true s = Some cs -> WellFormed16 s.
Proof.
  induction n as [|n IH]; intros s cs Hlen Hdec.
  - destruct s; [constructor | cbn [length] in Hlen; lia].
  - destruct s as [|w rest]; [constructor|].
    cbn [utf16_scalars] in Hdec. cbn [length] in Hlen.
    destruct (is_high_surrogate w) eqn:Hh.
    + destruct rest as [|l rest']; [discriminate|].
      destruct (is_low_surrogate l) eqn:Hl; [|discriminate].
      destruct (utf16_scalars true rest') as [cs'|] eqn:Hrest; [|discriminate].
      apply wf16_pair; [exact Hh | exact Hl |].
      apply (IH rest' cs'); [cbn [length] in Hlen; lia | exact Hrest].
    + destruct (is_bmp_scalar w) eqn:Hw; [|discriminate].
      destruct (utf16_scalars true rest) as [cs'|] eqn:Hrest; [|discriminate].
      apply wf16_unit; [exact Hw |].
      apply (IH rest cs'); [lia | exact Hrest].
Qed.

Lemma utf16_scalars_strict_well_formed (s cs : list Z) :
  utf16_scalars true s = Some cs -> WellFormed16 s.
Proof. apply (utf16_scalars_strict_bounded (length s)). lia. Qed.

Lemma last_cons_nonempty {A : Type} (a d : A) (l : list A) :
  l <> [] -> last (a :: l) d = last l d.
Proof. destruct l; [congruence | reflexivity]. Qed.

(** An unpaired surrogate stays one when the code units before the sequence
    are dropped, as long as none of them is its partner. *)
Lemma unpaired_after (a : Z) (pre : list Z) (w : Z) :
  is_high_surrogate (last (a :: pre) 0) = false ->
  is_high_surrogate (last pre 0) = false.
Proof.
  destruct pre as [|b pre]; [reflexivity|].
  now rewrite last_cons_nonempty by discriminate.
Qed.

(** Well-formed UTF-16 has no unpaired surrogate. *)
Lemma well_formed_no_unpaired (s : list Z) :
  WellFormed16 s -> ~ has_unpaired_surrogate s.
Proof.
  induction 1 as [|w0 s Hw Hs IH|h l s Hh Hl Hs IH];
    intros (pre & w & post & Heq & Hbad).
  - now destruct pre.
  - destruct pre as [|a pre]; cbn [app] in Heq;
      injection Heq as E1 E2; subst.
    + rewrite (bmp_not_high _ Hw), (bmp_not_low _ Hw) in Hbad.
      destruct Hbad as [[? _]|[? _]]; discriminate.
    + apply IH. exists pre, w, post. split; [reflexivity|].
      destruct Hbad as [Hbad|[Hlow Hlast]]; [now left | right].
      split; [exact Hlow | exact (unpaired_after _ _ w Hlast)].
  - destruct pre as [|a pre]; cbn [app] in Heq.
    + injection Heq as E1 E2; subst. cbn [hd last] in Hbad.
      rewrite Hl in Hbad.
      destruct Hbad as [[_ ?]|[Hlow _]]; [discriminate|].
      rewrite (low_not_high _ Hlow) in Hh. discriminate.
    + injection Heq as E1 Heq.
      destruct pre as [|b pre]; cbn [app] in Heq;
        injection Heq as E2 E3; subst.
      * cbn [last] in Hbad. rewrite Hh in Hbad.
        destruct Hbad as [[Hhigh _]|[_ ?]]; [|discriminate].
        rewrite (low_not_high _ Hl) in Hhigh. discriminate.
      * apply IH. exists pre, w, post. split; [reflexivity|].
        destruct Hbad as [Hbad|[Hlow Hlast]]; [now left | right].
        split; [exact Hlow|].
        apply (unpaired_after b pre w), (unpaired_after a (b :: pre) w).
        exact Hlast.
Qed.

Lemma unpaired_before (a : Z) (pre : list Z) :
  is_high_surrogate a = false ->
  is_high_surrogate (last pre 0) = false ->
  is_high_surrogate (last (a :: pre) 0) = false.
Proof.
  intros Ha Hpre. destruct pre as [|b pre]; [exact Ha|].
  now rewrite last_cons_nonempty by discriminate.
Qed.

Lemma unpaired_cons (a : Z) (s : list Z) :
  is_high_surrogate a = false ->
  has_unpaired_surrogate s -> has_unpaired_surrogate (a :: s).
Proof.
  intros Ha (pre & w & post & -> & Hbad).
  exists (a :: pre), w, post. split; [reflexivity|].
  destruct Hbad as [Hbad|[Hlow Hlast]]; [now left | right].
  split; [exact Hlow | now apply unpaired_before].
Qed.

(** Code units without an unpaired surrogate are well-formed UTF-16. *)
Lemma no_unpaired_bounded (n : nat) :
  forall s : list Z,
    (length s <= n)%nat -> Forall wchar_ok s ->
    ~ has_unpaired_surrogate s -> WellFormed16 s.
Proof.
  induction n as [|n IH]; intros s Hlen Hok Hgood.
  - destruct s; [constructor | cbn [length] in Hlen; lia].
  - destruct s as [|w rest]; [constructor|].
    cbn [length] in Hlen.
    pose proof (Forall_inv Hok) as Hw. pose proof (Forall_inv_tail Hok) as Hrest.
    unfold wchar_ok in Hw.
    destruct (is_high_surrogate w) eqn:Hh.
    + destruct rest as [|l rest'].
      { exfalso. apply Hgood. exists [], w, []. split; [reflexivity|].
        left. split; [exact Hh | reflexivity]. }
      destruct (is_low_surrogate l) eqn:Hl.
      * apply wf16_pair; [exact Hh | exact Hl |].
        apply IH; [cbn [length] in Hlen; lia | exact (Forall_inv_tail Hrest) |].
        intros Hbad. apply Hgood.
        destruct Hbad as (pre & w' & post & -> & Hbad).
        exists (w :: l :: pre), w', post. split; [reflexivity|].
        destruct Hbad as [Hbad|[Hlow Hlast]]; [now left | right].
        split; [exact Hlow|].
        destruct pre as [|b pre]; [exact (low_not_high _ Hl)|].
        now rewrite !last_cons_nonempty by discriminate.
      * exfalso. apply Hgood. exists [], w, (l :: rest').
        split; [reflexivity|]. left. split; [exact Hh | exact Hl].
    + destruct (is_low_surrogate w) eqn:Hl.
      { exfalso. apply Hgood. exists [], w, rest. split; [reflexivity|].
        right. split; [exact Hl | reflexivity]. }
      apply wf16_unit.
      * clear - Hw Hh Hl. decide_test (is_bmp_scalar w).
      * apply IH; [lia | exact Hrest |].
        intros Hbad. apply Hgood. now apply unpaired_cons.
Qed.

Lemma no_unpaired_well_formed (s : list Z) :
  Forall wchar_ok s -> ~ has_unpaired_surrogate s -> WellFormed16 s.
Proof. apply (no_unpaired_bounded (length s)). lia. Qed.

Lemma unpaired_rejected (s : list Z) :
  has_unpaired_surrogate s -> utf16_scalars true s = None.
Proof.
  intros Hbad. destruct (utf16_scalars true s) as [cs|] eqn:Hdec; [|reflexivity].
  exfalso. apply (well_formed_no_unpaired s); [|exact Hbad].
  exact (utf16_scalars_strict_well_formed s cs Hdec).
Qed.

(** The second byte after a three-byte lead, lead by lead. *)
Lemma three_byte_well_formed (b0 b1 b2 : Z) (t : list Z) :
  between 0xE0 b0 0xEF = true ->
  between (second_lo b0) b1 (second_hi b0) = true ->
  is_continuation b2 = true ->
  WellFormed8 t -> WellFormed8 (b0 :: b1 :: b2 :: t).
Proof.
  intros H0 H1 H2 Ht. unfold second_lo, second_hi in H1.
  destruct (Z.eqb_spec b0 0xE0) as [->|NE0].
  { now apply wf8_three_E0. }
  destruct (Z.eqb_spec b0 0xF0) as [->|NF0]; [discriminate|].
  destruct (Z.eqb_spec b0 0xED) as [->|NED].
  { now apply wf8_three_ED. }
  destruct (Z.eqb_spec b0 0xF4) as [->|NF4]; [discriminate|].
  destruct (Z_lt_le_dec b0 0xED).
  - apply wf8_three_E1_EC; try assumption. apply between_true. ranges. lia.
  - apply wf8_three_EE_EF; try assumption. apply between_true. ranges. lia.
Qed.

Lemma four_byte_well_formed (b0 b1 b2 b3 : Z) (t : list Z) :
  between 0xF0 b0 0xF4 = true ->
  between (second_lo b0) b1 (second_hi b0) = true ->
  is_continuation b2 = true -> is_continuation b3 = true ->
  WellFormed8 t -> WellFormed8 (b0 :: b1 :: b2 :: b3 :: t).
Proof.
  intros H0 H1 H2 H3 Ht. unfold second_lo, second_hi in H1.
  destruct (Z.eqb_spec b0 0xE0) as [->|NE0]; [discriminate|].
  destruct (Z.eqb_spec b0 0xF0) as [->|NF0].
  { now apply wf8_four_F0. }
  destruct (Z.eqb_spec b0 0xED) as [->|NED]; [discriminate|].
  destruct (Z.eqb_spec b0 0xF4) as [->|NF4].
  { now apply wf8_four_F4. }
  apply wf8_four_F1_F3; try assumption. apply between_true. ranges. lia.
Qed.

(** What the strict UTF-8 reader accepts is well-formed. *)
Lemma utf8_scalars_strict_bounded (n : nat) :
  forall (s cs : list Z),
    (length s <= n)%nat -> utf8_scalars true s = Some cs -> WellFormed8 s.
Proof.
  induction n as [|n IH]; intros s cs Hlen Hdec.
  - destruct s; [constructor | cbn [length] in Hlen; lia].
  - destruct s as [|b0 t0]; [constructor|].
    cbn [utf8_scalars] in Hdec. cbn [length] in Hlen.
    destruct (between 0x00 b0 0x7F) eqn:Ha.
    { destruct (utf8_scalars true t0) as [cs'|] eqn:Hrest; [|discriminate].
      apply wf8_ascii; [exact Ha|]. apply (IH t0 cs'); [lia | exact Hrest]. }
    destruct (between 0xC2 b0 0xDF) eqn:Hb.
    { destruct t0 as [|b1 t1]; [discriminate|].
      destruct (is_continuation b1) eqn:H1; [|discriminate].
      destruct (utf8_scalars true t1) as [cs'|] eqn:Hrest; [|discriminate].
      apply wf8_two; [exact Hb | exact H1 |].
      apply (IH t1 cs'); [cbn [length] in Hlen; lia | exact Hrest]. }
    destruct (between 0xE0 b0 0xEF) eqn:Hc.
    { destruct t0 as [|b1 [|b2 t2]]; try discriminate.
      destruct (between (second_lo b0) b1 (second_hi b0)) eqn:H1;
        [|discriminate].
      destruct (is_continuation b2) eqn:H2; [|discriminate].
      cbn [andb] in Hdec.
      destruct (utf8_scalars true t2) as [cs'|] eqn:Hrest; [|discriminate].
      apply three_byte_well_formed; try assumption.
      apply (IH t2 cs'); [cbn [length] in Hlen; lia | exact Hrest]. }
    destruct (between 0xF0 b0 0xF4) eqn:Hd; [|discriminate].
    destruct t0 as [|b1 [|b2 [|b3 t3]]]; try discriminate.
    destruct (between (second_lo b0) b1 (second_hi b0)) eqn:H1;
      [|discriminate].
    destruct (is_continuation b2) eqn:H2; [|discriminate].
    destruct (is_continuation b3) eqn:H3; [|discriminate].
    cbn [andb] in Hdec.
    destruct (utf8_scalars true t3) as [cs'|] eqn:Hrest; [|discriminate].
    apply four_byte_well_formed; try assumption.
    apply (IH t3 cs'); [cbn [length] in Hlen; lia | exact Hrest].
Qed.

Lemma utf8_scalars_strict_well_formed (s cs : list Z) :
  utf8_scalars true s = Some cs -> WellFormed8 s.
Proof. apply (utf8_scalars_strict_bounded (length s)). lia. Qed.

Lemma ill_formed_rejected (s : list Z) :
  ~ WellFormed8 s -> utf8_scalars true s = None.
Proof.
  intros Hbad. destruct (utf8_scalars true s) as [cs|] eqn:Hdec; [|reflexivity].
  exfalso. apply Hbad. exact (utf8_scalars_strict_well_formed s cs Hdec).
Qed.

(** Conversely, the strict UTF-8 reader accepts all well-formed input. *)
Lemma well_formed_accepted (s : list Z) :
  WellFormed8 s -> exists cs, utf8_scalars true s = Some cs.
Proof.
  induction 1 as
    [ | b0 s H0 Hs [cs IH] | b0 b1 s H0 H1 Hs [cs IH]
      | b1 b2 s H1 H2 Hs [cs IH] | b0 b1 b2 s H0 H1 H2 Hs [cs IH]
      | b1 b2 s H1 H2 Hs [cs IH] | b0 b1 b2 s H0 H1 H2 Hs [cs IH]
      | b1 b2 b3 s H1 H2 H3 Hs [cs IH] | b0 b1 b2 b3 s H0 H1 H2 H3 Hs [cs IH]
      | b1 b2 b3 s H1 H2 H3 Hs [cs IH] ].
  - exists []. reflexivity.
  - rewrite utf8_scalars_one, IH by assumption. eexists. reflexivity.
  - rewrite utf8_scalars_two, IH by assumption. eexists. reflexivity.
  - rewrite utf8_scalars_three, IH by (assumption || reflexivity).
    eexists. reflexivity.
  - rewrite utf8_scalars_three, IH; try assumption.
    + eexists. reflexivity.
    + apply between_true. ranges. lia.
    + unfold second_lo, second_hi.
      repeat match goal with
      | |- context [ ?a =? ?b ] => destruct (Z.eqb_spec a b)
      end; ranges; apply between_true; lia.
  - rewrite utf8_scalars_three, IH by (assumption || reflexivity).
    eexists. reflexivity.
  - rewrite utf8_scalars_three, IH; try assumption.
    + eexists. reflexivity.
    + apply between_true. ranges. lia.
    + unfold second_lo, second_hi.
      repeat match goal with
      | |- context [ ?a =? ?b ] => destruct (Z.eqb_spec a b)
      end; ranges; apply between_true; lia.
  - rewrite utf8_scalars_four, IH by (assumption || reflexivity).
    eexists. reflexivity.
  - rewrite utf8_scalars_four, IH; try assumption.
    + eexists. reflexivity.
    + apply between_true. ranges. lia.
    + unfold second_lo, second_hi.
      repeat match goal with
      | |- context [ ?a =? ?b ] => destruct (Z.eqb_spec a b)
      end; ranges; apply between_true; lia.
  - rewrite utf8_scalars_four, IH by (assumption || reflexivity).
    eexists. reflexivity.
Qed.

(** The primitive, called the way the conversions call it: in strict
    mode, on the whole of a non-empty source. *)
Lemma WideCharToMultiByte_strict (s : list Z) (destination : option (list Z))
    (capacity : Z) (p : Platform) :
  s <> [] -> 0 <= capacity ->
  Reference.WideCharToMultiByte CP_UTF8 WC_ERR_INVALID_CHARS s
    (Z.of_nat (length s)) destination capacity p =
  deliver (option_map (flat_map utf8_encode) (utf16_scalars true s))
    destination capacity p.
Proof.
  intros Hne Hcap. unfold Reference.WideCharToMultiByte.
  rewrite Nat2Z.id, firstn_all.
  destruct s as [|w s]; [congruence|].
  change (CP_UTF8 =? CP_UTF8) with true.
  change (WC_ERR_INVALID_CHARS =? WC_ERR_INVALID_CHARS) with true.
  rewrite orb_true_r. cbn [negb].
  destruct (Z.leb_spec (Z.of_nat (length (w :: s))) 0) as [Hz|_];
    [cbn [length] in Hz; lia|].
  destruct (Z.ltb_spec capacity 0) as [Hc|_]; [lia|].
  reflexivity.
Qed.

Lemma MultiByteToWideChar_strict (s : list Z) (destination : option (list Z))
    (capacity : Z) (p : Platform) :
  s <> [] -> 0 <= capacity ->
  Reference.MultiByteToWideChar CP_UTF8 MB_ERR_INVALID_CHARS s
    (Z.of_nat (length s)) destination capacity p =
  deliver (option_map (flat_map utf16_encode) (utf8_scalars true s))
    destination capacity p.
Proof.
  intros Hne Hcap. unfold Reference.MultiByteToWideChar.
  rewrite Nat2Z.id, firstn_all.
  destruct s as [|b s]; [congruence|].
  change (CP_UTF8 =? CP_UTF8) with true.
  change (MB_ERR_INVALID_CHARS =? MB_ERR_INVALID_CHARS) with true.
  rewrite orb_true_r. cbn [negb].
  destruct (Z.leb_spec (Z.of_nat (length (b :: s))) 0) as [Hz|_];
    [cbn [length] in Hz; lia|].
  destruct (Z.ltb_spec capacity 0) as [Hc|_]; [lia|].
  reflexivity.
Qed.

(** The two passes over output that fits. *)
Lemma deliver_measure {A : Type} (units : list A) (p : Platform) :
  Z.of_nat (length units) <= INT_MAX ->
  deliver (Some units) None 0 p = (Z.of_nat (length units), [], p).
Proof.
  intros Hfit. unfold deliver.
  destruct (Z.gtb_spec (Z.of_nat (length units)) INT_MAX); [lia|].
  reflexivity.
Qed.

Lemma deliver_fill {A : Type} (units buffer : list A) (p : Platform) :
  0 < Z.of_nat (length units) <= INT_MAX ->
  deliver (Some units) (Some buffer) (Z.of_nat (length units)) p =
  (Z.of_nat (length units), units, p).
Proof.
  intros Hfit. unfold deliver.
  destruct (Z.gtb_spec (Z.of_nat (length units)) INT_MAX); [lia|].
  destruct (Z.eqb_spec (Z.of_nat (length units)) 0); [lia|].
  destruct (Z.gtb_spec (Z.of_nat (length units)) (Z.of_nat (length units)));
    [lia|].
  reflexivity.
Qed.

Lemma store_fresh (units : list Z) :
  store (repeat 0 (Z.to_nat (Z.of_nat (length units)))) units = units.
Proof.
  apply store_exact. now rewrite repeat_length, Nat2Z.id.
Qed.

Lemma nonempty_length {A : Type} (s : list A) :
  s <> [] <-> 0 < Z.of_nat (length s).
Proof.
  destruct s; cbn [length]; split; intros H; try congruence; lia.
Qed.

(** [Utf8FromUtf16] on input that the primitive accepts. *)
Lemma Utf8FromUtf16_accepted (s cs : list Z) (m : @Machine Platform) :
  s <> [] -> Z.of_nat (length s) <= INT_MAX ->
  utf16_scalars true s = Some cs ->
  0 < Z.of_nat (length (flat_map utf8_encode cs)) <= INT_MAX ->
  Utf8FromUtf16 s m =
  (Return (flat_map utf8_encode cs),
   mk_Machine (platform m)
     (log m ++ steps16to8 (Z.of_nat (length s))
                 (Z.of_nat (length (flat_map utf8_encode cs))))).
Proof.
  intros Hne Hlen Hcs Hout.
  rewrite Utf8FromUtf16_run by assumption.
  unfold Utf8FromUtf16_paths. rewrite measure_pass16to8_reference.
  rewrite WideCharToMultiByte_strict by (assumption || lia).
  rewrite Hcs. cbn [option_map]. rewrite deliver_measure by lia.
  set (n := Z.of_nat (length (flat_map utf8_encode cs))) in *.
  destruct (Z.eqb_spec n 0); [lia|]. destruct (Z.ltb_spec n 0); [lia|].
  rewrite fill_pass16to8_reference.
  rewrite WideCharToMultiByte_strict by (assumption || lia).
  rewrite Hcs. cbn [option_map]. subst n.
  rewrite deliver_fill by lia.
  set (n := Z.of_nat (length (flat_map utf8_encode cs))) in *.
  destruct (Z.eqb_spec n 0); [lia|]. subst n.
  now rewrite store_fresh.
Qed.

(** [Utf8FromUtf16] on input that the primitive rejects. *)
Lemma Utf8FromUtf16_rejected (s : list Z) (m : @Machine Platform) :
  s <> [] -> Z.of_nat (length s) <= INT_MAX ->
  utf16_scalars true s = None ->
  fst (Utf8FromUtf16 s m) =
  Throw (conversion_error ERROR_NO_UNICODE_TRANSLATION
           ConversionFromUtf16ToUtf8 measure_message_utf8).
Proof.
  intros Hne Hlen Hcs.
  rewrite Utf8FromUtf16_run by assumption.
  unfold Utf8FromUtf16_paths. rewrite measure_pass16to8_reference.
  rewrite WideCharToMultiByte_strict by (assumption || lia).
  rewrite Hcs. reflexivity.
Qed.

Lemma Utf16FromUtf8_accepted (s cs : list Z) (m : @Machine Platform) :
  s <> [] -> Z.of_nat (length s) <= INT_MAX ->
  utf8_scalars true s = Some cs ->
  0 < Z.of_nat (length (flat_map utf16_encode cs)) <= INT_MAX ->
  Utf16FromUtf8 s m =
  (Return (flat_map utf16_encode cs),
   mk_Machine (platform m)
     (log m ++ steps8to16 (Z.of_nat (length s))
                 (Z.of_nat (length (flat_map utf16_encode cs))))).
Proof.
  intros Hne Hlen Hcs Hout.
  rewrite Utf16FromUtf8_run by assumption.
  unfold Utf16FromUtf8_paths. rewrite measure_pass8to16_reference.
  rewrite MultiByteToWideChar_strict by (assumption || lia).
  rewrite Hcs. cbn [option_map]. rewrite deliver_measure by lia.
  set (n := Z.of_nat (length (flat_map utf16_encode cs))) in *.
  destruct (Z.eqb_spec n 0); [lia|]. destruct (Z.ltb_spec n 0); [lia|].
  rewrite fill_pass8to16_reference.
  rewrite MultiByteToWideChar_strict by (assumption || lia).
  rewrite Hcs. cbn [option_map]. subst n.
  rewrite deliver_fill by lia.
  set (n := Z.of_nat (length (flat_map utf16_encode cs))) in *.
  destruct (Z.eqb_spec n 0); [lia|]. subst n.
  now rewrite store_fresh.
Qed.

Lemma Utf16FromUtf8_rejected (s : list Z) (m : @Machine Platform) :
  s <> [] -> Z.of_nat (length s) <= INT_MAX ->
  utf8_scalars true s = None ->
  fst (Utf16FromUtf8 s m) =
  Throw (conversion_error ERROR_NO_UNICODE_TRANSLATION
           ConversionFromUtf8ToUtf16 measure_message_utf16).
Proof.
  intros Hne Hlen Hcs.
  rewrite Utf16FromUtf8_run by assumption.
  unfold Utf16FromUtf8_paths. rewrite measure_pass8to16_reference.
  rewrite MultiByteToWideChar_strict by (assumption || lia).
  rewrite Hcs. reflexivity.
Qed.

End ReferenceFacts.

(** ** The conversions on the reference platform *)

Lemma repeat_well_formed (w : Z) (n : nat) :
  is_bmp_scalar w = true -> WellFormed16 (repeat w n).
Proof.
  intros Hw. induction n as [|n IH]; cbn [repeat]; now constructor.
Qed.

Lemma round_trip_well_formed (s : list wchar_t)
    (m : @Machine Reference.Platform) :
  WellFormed16 s -> utf8_size s <= INT_MAX ->
  fst (round_trip s m) = Return s.
Proof.
  intros Hwf Hsize.
  destruct s as [|w s']; [reflexivity|].
  set (s := w :: s') in *.
  assert (Hne : s <> []) by (subst s; discriminate).
  pose proof (ReferenceFacts.utf8_size_length s) as Hlen.
  pose proof (proj1 (ReferenceFacts.nonempty_length s) Hne) as Hpos.
  destruct (ReferenceFacts.utf16_scalars_well_formed s Hwf)
    as (cs & Hdec & Hsc & Henc & Hout).
  unfold round_trip, bind.
  rewrite (ReferenceFacts.Utf8FromUtf16_accepted s cs m) by (assumption || lia).
  rewrite (ReferenceFacts.Utf16FromUtf8_accepted
             (flat_map Reference.utf8_encode cs) cs).
  - cbn [fst]. now rewrite Henc.
  - apply ReferenceFacts.nonempty_length. lia.
  - lia.
  - now apply ReferenceFacts.utf8_scalars_encode_all.
  - rewrite Henc. lia.
Qed.

(** C1, within the lengths an [int] can hold: for a sequence of 16-bit code
    units without unpaired surrogates, whose UTF-8 form has at most
    [INT_MAX] code units, converting to UTF-8 and back returns the sequence
    one started from. *)
Theorem round_trip_identity (s : list wchar_t)
    (m : @Machine Reference.Platform) :
  Forall wchar_ok s -> ~ has_unpaired_surrogate s ->
  utf8_size s <= INT_MAX ->
  fst (round_trip s m) = Return s.
Proof.
  intros Hok Hgood Hsize. apply round_trip_well_formed; [|exact Hsize].
  now apply ReferenceFacts.no_unpaired_well_formed.
Qed.

Lemma round_trip_identity_witness :
  fst (round_trip [0x4A; 0x5B66; 0xD83D; 0xDE00] (Reference.start 0)) =
  Return [0x4A; 0x5B66; 0xD83D; 0xDE00].
Proof.
  apply (round_trip_identity [0x4A; 0x5B66; 0xD83D; 0xDE00] (Reference.start 0)).
  - repeat constructor; unfold wchar_ok; lia.
  - apply ReferenceFacts.well_formed_no_unpaired.
    apply wf16_unit; [reflexivity|]. apply wf16_unit; [reflexivity|].
    apply wf16_pair; [reflexivity | reflexivity | constructor].
  - vm_compute. discriminate.
Defined.

(** C1 as stated fails on a long input: 2^31 code units 'A' have no unpaired
    surrogate, and the conversion throws the overflow error of the length
    cast. *)
Lemma round_trip_fails_on_long_input :
  Forall wchar_ok (repeat 0x41 (Z.to_nat 2147483648)) /\
  ~ has_unpaired_surrogate (repeat 0x41 (Z.to_nat 2147483648)) /\
  fst (round_trip (repeat 0x41 (Z.to_nat 2147483648)) (Reference.start 0)) =
    Throw (overflow_error (mk_runtime_error overflow_message)) /\
  fst (round_trip (repeat 0x41 (Z.to_nat 2147483648)) (Reference.start 0)) <>
    Return (repeat 0x41 (Z.to_nat 2147483648)).
Proof.
  assert (Hthrow :
    fst (round_trip (repeat 0x41 (Z.to_nat 2147483648)) (Reference.start 0)) =
    Throw (overflow_error (mk_runtime_error overflow_message))).
  { unfold round_trip, bind. rewrite Utf8FromUtf16_overflow; [reflexivity|].
    rewrite repeat_length, Z2Nat.id; unfold INT_MAX; lia. }
  split.
  { apply Forall_forall. intros w Hw. apply repeat_spec in Hw. subst w.
    unfold wchar_ok. lia. }
  split.
  { apply ReferenceFacts.well_formed_no_unpaired, repeat_well_formed.
    reflexivity. }
  split; [exact Hthrow|]. rewrite Hthrow. discriminate.
Qed.

(** C8: the code unit 0x5B66 converts to the three bytes E5 AD A6, and these
    three bytes convert back to the code unit 0x5B66. *)
Theorem known_vector (m : @Machine Reference.Platform) :
  fst (Utf8FromUtf16 [0x5B66] m) = Return [0xE5; 0xAD; 0xA6] /\
  length [0xE5; 0xAD; 0xA6] = 3%nat /\
  fst (Utf16FromUtf8 [0xE5; 0xAD; 0xA6] m) = Return [0x5B66].
Proof. repeat split. Qed.

(** Every call of a primitive in a run asks for strict validation. *)
Lemma steps16to8_strict (n r : Z) : Forall strict_call (steps16to8 n r).
Proof. repeat constructor. Qed.

Lemma steps8to16_strict (n r : Z) : Forall strict_call (steps8to16 n r).
Proof. repeat constructor. Qed.

Lemma in_sequence_strict (steps before after : list Event) :
  Forall strict_call steps -> in_sequence steps before after ->
  exists calls, after = before ++ calls /\ Forall strict_call calls.
Proof.
  intros Hsteps (k & tail & -> & Htail).
  exists (firstn k steps ++ tail). split; [reflexivity|].
  apply Forall_app. split.
  - apply Forall_forall. intros ev Hev.
    apply (proj1 (Forall_forall _ _) Hsteps).
    rewrite <- (firstn_skipn k steps). apply in_or_app. now left.
  - destruct Htail as [->|[-> _]]; repeat constructor.
Qed.

(** Without the strictness flag the primitive of the reference platform
    accepts malformed input and writes U+FFFD in its place. *)
Example lenient_replaces_lone_surrogate :
  Reference.WideCharToMultiByte CP_UTF8 0 [0xD800] 1 (Some [0; 0; 0]) 3
    (Reference.mk_Platform 0) =
  (3, [0xEF; 0xBF; 0xBD], Reference.mk_Platform 0).
Proof. reflexivity. Qed.

Example lenient_replaces_invalid_byte :
  Reference.MultiByteToWideChar CP_UTF8 0 [0xE5; 0x41; 0xA6] 3
    (Some [0; 0; 0]) 3 (Reference.mk_Platform 0) =
  (3, [0xFFFD; 0x41; 0xFFFD], Reference.mk_Platform 0).
Proof. reflexivity. Qed.

(** C2: both conversions call the primitive for UTF-8 with the strictness
    flag, on every platform; and on the reference platform a UTF-16 input
    with an unpaired surrogate makes [Utf8FromUtf16] throw, and a UTF-8
    input that is not well-formed makes [Utf16FromUtf8] throw: the error of
    the measure pass when the length fits an [int], so that no output, with
    or without replacement characters, is returned. *)
Theorem strict_rejection :
  (forall (Platform : Type) (api : Win32API Platform)
          (utf16 : list wchar_t) (m : @Machine Platform),
     exists calls,
       log (snd (Utf8FromUtf16 utf16 m)) = log m ++ calls /\
       Forall strict_call calls) /\
  (forall (Platform : Type) (api : Win32API Platform)
          (utf8 : list char) (m : @Machine Platform),
     exists calls,
       log (snd (Utf16FromUtf8 utf8 m)) = log m ++ calls /\
       Forall strict_call calls) /\
  (forall (utf16 : list wchar_t) (m : @Machine Reference.Platform),
     has_unpaired_surrogate utf16 ->
     exists e,
       fst (Utf8FromUtf16 utf16 m) = Throw e /\
       (Z.of_nat (length utf16) <= INT_MAX ->
        e = conversion_error Reference.ERROR_NO_UNICODE_TRANSLATION
              ConversionFromUtf16ToUtf8 measure_message_utf8)) /\
  (forall (utf8 : list char) (m : @Machine Reference.Platform),
     ~ WellFormed8 utf8 ->
     exists e,
       fst (Utf16FromUtf8 utf8 m) = Throw e /\
       (Z.of_nat (length utf8) <= INT_MAX ->
        e = conversion_error Reference.ERROR_NO_UNICODE_TRANSLATION
              ConversionFromUtf8ToUtf16 measure_message_utf16)).
Proof.
  split; [|split; [|split]].
  - intros Platform api utf16 m.
    eapply in_sequence_strict;
      [apply steps16to8_strict | apply Utf8FromUtf16_sequence].
  - intros Platform api utf8 m.
    eapply in_sequence_strict;
      [apply steps8to16_strict | apply Utf16FromUtf8_sequence].
  - intros utf16 m Hbad.
    assert (Hne : utf16 <> []).
    { destruct Hbad as (pre & w & post & -> & _). now destruct pre. }
    destruct (Z_lt_le_dec INT_MAX (Z.of_nat (length utf16))) as [Hbig|Hfit].
    + rewrite (Utf8FromUtf16_overflow _ m Hbig).
      eexists. split; [reflexivity | lia].
    + rewrite (ReferenceFacts.Utf8FromUtf16_rejected utf16 m Hne Hfit
                 (ReferenceFacts.unpaired_rejected utf16 Hbad)).
      eexists. split; reflexivity.
  - intros utf8 m Hbad.
    assert (Hne : utf8 <> []).
    { intros ->. apply Hbad. constructor. }
    destruct (Z_lt_le_dec INT_MAX (Z.of_nat (length utf8))) as [Hbig|Hfit].
    + rewrite (Utf16FromUtf8_overflow _ m Hbig).
      eexists. split; [reflexivity | lia].
    + rewrite (ReferenceFacts.Utf16FromUtf8_rejected utf8 m Hne Hfit
                 (ReferenceFacts.ill_formed_rejected utf8 Hbad)).
      eexists. split; reflexivity.
Qed.

Lemma invalid_continuation_ill_formed : ~ WellFormed8 [0xE5; 0x41; 0xA6].
Proof.
  intros H. inversion H; subst;
    match goal with
    | E : between _ _ _ = true |- _ => vm_compute in E; discriminate E
    end.
Qed.

Lemma strict_rejection_witness :
  (exists e,
     fst (Utf8FromUtf16 [0x41; 0xD800] (Reference.start 0)) = Throw e /\
     (Z.of_nat (length [0x41; 0xD800]) <= INT_MAX ->
      e = conversion_error Reference.ERROR_NO_UNICODE_TRANSLATION
            ConversionFromUtf16ToUtf8 measure_message_utf8)) /\
  (exists e,
     fst (Utf16FromUtf8 [0xE5; 0x41; 0xA6] (Reference.start 0)) = Throw e /\
     (Z.of_nat (length [0xE5; 0x41; 0xA6]) <= INT_MAX ->
      e = conversion_error Reference.ERROR_NO_UNICODE_TRANSLATION
            ConversionFromUtf8ToUtf16 measure_message_utf16)).
Proof.
  split.
  - apply (proj1 (proj2 (proj2 strict_rejection))).
    exists [0x41], 0xD800, []. split; [reflexivity|].
    left. split; reflexivity.
  - apply (proj2 (proj2 (proj2 strict_rejection))).
    exact invalid_continuation_ill_formed.
Defined.

(** ** Runs on a platform that replays prepared answers *)

Lemma zero_return_throws_witness :
  fst (Utf8FromUtf16 [0xD800] (Scripted.start [Scripted.mk_Answer 0 [] 1113])) =
    Throw (conversion_error 1113 ConversionFromUtf16ToUtf8
             "Can't get result UTF-8 string length (WideCharToMultiByte failed).") /\
  fst (Utf8FromUtf16 [0x5B66]
         (Scripted.start [Scripted.mk_Answer 3 [] 0; Scripted.mk_Answer 0 [] 122])) =
    Throw (conversion_error 122 ConversionFromUtf16ToUtf8
             "Can't convert from UTF-16 to UTF-8 string (WideCharToMultiByte failed).") /\
  fst (Utf16FromUtf8 [0xE5; 0x41] (Scripted.start [Scripted.mk_Answer 0 [] 1113])) =
    Throw (conversion_error 1113 ConversionFromUtf8ToUtf16
             "Can't get result UTF-16 string length (MultiByteToWideChar failed).") /\
  fst (Utf16FromUtf8 [0xE5; 0xAD; 0xA6]
         (Scripted.start [Scripted.mk_Answer 1 [] 0; Scripted.mk_Answer 0 [] 122])) =
    Throw (conversion_error 122 ConversionFromUtf8ToUtf16
             "Can't convert from UTF-8 to UTF-16 string (MultiByteToWideChar failed).").
Proof.
  destruct (@zero_return_throws Scripted.Platform Scripted.api)
    as (Hm16 & Hf16 & Hm8 & Hf8).
  split; [|split; [|split]].
  - apply (Hm16 [0xD800] (Scripted.start [Scripted.mk_Answer 0 [] 1113])
             [] (Scripted.mk_Platform [] 1113));
      [discriminate | vm_compute; discriminate | reflexivity].
  - apply (Hf16 [0x5B66]
             (Scripted.start [Scripted.mk_Answer 3 [] 0; Scripted.mk_Answer 0 [] 122])
             3 [] (Scripted.mk_Platform [Scripted.mk_Answer 0 [] 122] 0)
             [] (Scripted.mk_Platform [] 122));
      [discriminate | vm_compute; discriminate | reflexivity | lia | reflexivity].
  - apply (Hm8 [0xE5; 0x41] (Scripted.start [Scripted.mk_Answer 0 [] 1113])
             [] (Scripted.mk_Platform [] 1113));
      [discriminate | vm_compute; discriminate | reflexivity].
  - apply (Hf8 [0xE5; 0xAD; 0xA6]
             (Scripted.start [Scripted.mk_Answer 1 [] 0; Scripted.mk_Answer 0 [] 122])
             1 [] (Scripted.mk_Platform [Scripted.mk_Answer 0 [] 122] 0)
             [] (Scripted.mk_Platform [] 122));
      [discriminate | vm_compute; discriminate | reflexivity | lia | reflexivity].
Defined.

(** C5 as stated fails on the messages: the exception of a failed measure
    pass (here on a lone surrogate, on the reference platform) and the one
    of a failed fill pass carry the direction and the last-error code, but
    their messages are not "length query failed" and "conversion failed". *)
Lemma messages_differ_from_the_stated_ones :
  (exists e,
     fst (Utf8FromUtf16 [0xD800] (Reference.start 0)) =
       Throw (conversion_exception e) /\
     GetConversionType e = ConversionFromUtf16ToUtf8 /\
     GetErrorCode e = Reference.ERROR_NO_UNICODE_TRANSLATION /\
     what_of e <> "length query failed"%string) /\
  (exists e,
     fst (Utf8FromUtf16 [0x5B66]
            (Scripted.start [Scripted.mk_Answer 3 [] 0; Scripted.mk_Answer 0 [] 122])) =
       Throw (conversion_exception e) /\
     GetConversionType e = ConversionFromUtf16ToUtf8 /\
     GetErrorCode e = 122 /\
     what_of e <> "conversion failed"%string).
Proof.
  split; eexists; (split; [reflexivity|]); repeat split; discriminate.
Qed.

Lemma fill_count_not_compared_witness :
  (exists utf8,
     fst (Utf8FromUtf16 [0x5B66]
            (Scripted.start [Scripted.mk_Answer 3 [] 0;
                             Scripted.mk_Answer 2 [0xC3; 0xA9] 0])) =
       Return utf8 /\
     Z.of_nat (length utf8) = 3) /\
  (exists utf16,
     fst (Utf16FromUtf8 [0xE5; 0xAD; 0xA6]
            (Scripted.start [Scripted.mk_Answer 1 [] 0;
                             Scripted.mk_Answer 2 [0x41; 0x42] 0])) =
       Return utf16 /\
     Z.of_nat (length utf16) = 1).
Proof.
  destruct (@fill_count_not_compared Scripted.Platform Scripted.api)
    as (H16 & H8).
  split.
  - apply (H16 [0x5B66]
             (Scripted.start [Scripted.mk_Answer 3 [] 0;
                              Scripted.mk_Answer 2 [0xC3; 0xA9] 0])
             3 [] (Scripted.mk_Platform [Scripted.mk_Answer 2 [0xC3; 0xA9] 0] 0)
             2 [0xC3; 0xA9] (Scripted.mk_Platform [] 0));
      [discriminate | vm_compute; discriminate | reflexivity | lia
      | reflexivity | lia | lia].
  - apply (H8 [0xE5; 0xAD; 0xA6]
             (Scripted.start [Scripted.mk_Answer 1 [] 0;
                              Scripted.mk_Answer 2 [0x41; 0x42] 0])
             1 [] (Scripted.mk_Platform [Scripted.mk_Answer 2 [0x41; 0x42] 0] 0)
             2 [0x41; 0x42] (Scripted.mk_Platform [] 0));
      [discriminate | vm_compute; discriminate | reflexivity | lia
      | reflexivity | lia | lia].
Defined.

(** A fill pass that claims two units for a buffer of one: the result keeps
    the measured length. *)
Example oversized_fill_keeps_measured_length :
  fst (Utf16FromUtf8 [0xE5; 0xAD; 0xA6]
         (Scripted.start [Scripted.mk_Answer 1 [] 0;
                          Scripted.mk_Answer 2 [0x41; 0x42] 0])) =
  Return [0x41].
Proof. reflexivity. Qed.

(** * Further facts *)

(** ** The length cast *)

Lemma static_cast_int_range (s : Z) :
  - 2 ^ 31 <= static_cast_int s <= INT_MAX.
Proof.
  unfold static_cast_int, INT_MAX.
  pose proof (Z.mod_pos_bound (s + 2 ^ 31) (2 ^ 32) ltac:(lia)). lia.
Qed.

(** X1: the guard of [SafeIntFromSizet] rejects exactly the lengths that
    [static_cast<int>] would change: for a length [s], the function returns
    if and only if the cast keeps the value, and what it returns is never
    negative nor above [INT_MAX]. *)
Theorem SafeIntFromSizet_guards_the_cast (s : Z) :
  0 <= s ->
  ((exists r, SafeIntFromSizet s = Return r) <-> static_cast_int s = s) /\
  (forall r, SafeIntFromSizet s = Return r -> 0 <= r <= INT_MAX).
Proof.
  intros Hs. pose proof (static_cast_int_range s) as Hrange.
  destruct (Z_lt_le_dec INT_MAX s) as [Hbig|Hfit].
  - rewrite (SafeIntFromSizet_overflow s Hbig). split.
    + split; [intros [r Hr]; discriminate | lia].
    + discriminate.
  - rewrite (SafeIntFromSizet_fits s (conj Hs Hfit)). split.
    + split; [intros _; now apply static_cast_int_small | intros _; now exists s].
    + intros r Hr. injection Hr as <-. lia.
Qed.

Lemma SafeIntFromSizet_guards_the_cast_witness :
  ((exists r, SafeIntFromSizet 4294967301 = Return r) <->
   static_cast_int 4294967301 = 4294967301) /\
  (forall r, SafeIntFromSizet 4294967301 = Return r -> 0 <= r <= INT_MAX).
Proof. apply (SafeIntFromSizet_guards_the_cast 4294967301). lia. Defined.

(** Without the guard a length of 2^32 + 5 would reach the primitive as 5. *)
Example cast_alone_wraps : static_cast_int 4294967301 = 5.
Proof. reflexivity. Qed.

(** ** The conversions on any platform, continued *)

Lemma calls_appended {Platform A : Type} (m : @Machine Platform)
    (run : Outcome A * @Machine Platform) (evs : list Event) :
  log (snd run) = log m ++ evs -> calls m run = evs.
Proof.
  intros Hlog. unfold calls. rewrite Hlog, skipn_app, skipn_all.
  now rewrite Nat.sub_diag.
Qed.

Lemma skipn_repeat {A : Type} (a : A) (k n : nat) :
  skipn k (repeat a n) = repeat a (n - k).
Proof.
  revert n. induction k as [|k IH]; intros n.
  - now rewrite Nat.sub_0_r.
  - destruct n as [|n]; [reflexivity|]. cbn [repeat skipn]. apply IH.
Qed.

Lemma store_padded {A : Type} (a : A) (n : nat) (written : list A) :
  (length written <= n)%nat ->
  store (repeat a n) written = written ++ repeat a (n - length written).
Proof.
  intros Hlen. unfold store. rewrite skipn_repeat, repeat_length.
  apply firstn_all2. rewrite length_app, repeat_length. lia.
Qed.

Section MoreConversionFacts.

Context {Platform : Type} {api : Win32API Platform}.

(** X2: a conversion returns exactly when the source is empty, or when its
    length fits an [int], the measure pass returns a positive count and the
    fill pass returns a count that is not zero.  In every other case it
    throws. *)
Theorem conversions_return_iff :
  (forall (utf16 : list wchar_t) (m : Machine),
     (exists utf8, fst (Utf8FromUtf16 utf16 m) = Return utf8) <->
     (utf16 = [] \/
      (Z.of_nat (length utf16) <= INT_MAX /\
       0 < fst (fst (measure_pass16to8 utf16 (platform m))) /\
       fst (fst (fill_pass16to8 utf16
                   (fst (fst (measure_pass16to8 utf16 (platform m))))
                   (snd (measure_pass16to8 utf16 (platform m))))) <> 0))) /\
  (forall (utf8 : list char) (m : Machine),
     (exists utf16, fst (Utf16FromUtf8 utf8 m) = Return utf16) <->
     (utf8 = [] \/
      (Z.of_nat (length utf8) <= INT_MAX /\
       0 < fst (fst (measure_pass8to16 utf8 (platform m))) /\
       fst (fst (fill_pass8to16 utf8
                   (fst (fst (measure_pass8to16 utf8 (platform m))))
                   (snd (measure_pass8to16 utf8 (platform m))))) <> 0))).
Proof.
  split.
  - intros utf16 m.
    destruct utf16 as [|w ws].
    { split; [now left | intros _; now exists []]. }
    set (s := w :: ws).
    destruct (Z_lt_le_dec INT_MAX (Z.of_nat (length s))) as [Hbig|Hfit].
    { rewrite (Utf8FromUtf16_overflow s m Hbig). split.
      - intros [? ?]; discriminate.
      - intros [?|[? _]]; [discriminate | lia]. }
    rewrite Utf8FromUtf16_run by (subst s; congruence || exact Hfit).
    unfold Utf8FromUtf16_paths.
    destruct (measure_pass16to8 s (platform m)) as [[r1 w1] p1].
    cbn [fst snd].
    destruct (Z.eqb_spec r1 0) as [Hz|Hnz].
    { split; [intros [? ?]; discriminate | intros [?|(_ & ? & _)]; [discriminate | lia]]. }
    destruct (Z.ltb_spec r1 0) as [Hneg|Hpos].
    { split; [intros [? ?]; discriminate | intros [?|(_ & ? & _)]; [discriminate | lia]]. }
    destruct (fill_pass16to8 s r1 p1) as [[r2 w2] p2]. cbn [fst].
    destruct (Z.eqb_spec r2 0) as [Hz2|Hnz2].
    { split; [intros [? ?]; discriminate
             | intros [?|(_ & _ & ?)]; [discriminate | contradiction]]. }
    split; [intros _; right; repeat split; (lia || assumption)
           | intros _; eexists; reflexivity].
  - intros utf8 m.
    destruct utf8 as [|b bs].
    { split; [now left | intros _; now exists []]. }
    set (s := b :: bs).
    destruct (Z_lt_le_dec INT_MAX (Z.of_nat (length s))) as [Hbig|Hfit].
    { rewrite (Utf16FromUtf8_overflow s m Hbig). split.
      - intros [? ?]; discriminate.
      - intros [?|[? _]]; [discriminate | lia]. }
    rewrite Utf16FromUtf8_run by (subst s; congruence || exact Hfit).
    unfold Utf16FromUtf8_paths.
    destruct (measure_pass8to16 s (platform m)) as [[r1 w1] p1].
    cbn [fst snd].
    destruct (Z.eqb_spec r1 0) as [Hz|Hnz].
    { split; [intros [? ?]; discriminate | intros [?|(_ & ? & _)]; [discriminate | lia]]. }
    destruct (Z.ltb_spec r1 0) as [Hneg|Hpos].
    { split; [intros [? ?]; discriminate | intros [?|(_ & ? & _)]; [discriminate | lia]]. }
    destruct (fill_pass8to16 s r1 p1) as [[r2 w2] p2]. cbn [fst].
    destruct (Z.eqb_spec r2 0) as [Hz2|Hnz2].
    { split; [intros [? ?]; discriminate
             | intros [?|(_ & _ & ?)]; [discriminate | contradiction]]. }
    split; [intros _; right; repeat split; (lia || assumption)
           | intros _; eexists; reflexivity].
Qed.

(** X3: an exception names its cause.  When [Utf8FromUtf16] throws the
    overflow error, it is the one of the length cast and the source is
    longer than [INT_MAX].  When it throws a [UnicodeConversionException],
    the direction is [ConversionFromUtf16ToUtf8], the error code is the
    last-error code of the platform as the call leaves it, and [what()]
    tells the pass that failed: the message of the measure pass when the
    measure pass returned zero, the message of the fill pass when the
    measure pass returned a positive count and the fill pass zero.  The
    same holds for [Utf16FromUtf8], with its direction and its messages. *)
Theorem exceptions_name_their_cause :
  (forall (utf16 : list wchar_t) (m : Machine),
     (forall r, fst (Utf8FromUtf16 utf16 m) = Throw (overflow_error r) ->
        r = mk_runtime_error overflow_message /\
        INT_MAX < Z.of_nat (length utf16)) /\
     (forall u, fst (Utf8FromUtf16 utf16 m) = Throw (conversion_exception u) ->
        GetConversionType u = ConversionFromUtf16ToUtf8 /\
        GetErrorCode u =
          GetLastError (platform (snd (Utf8FromUtf16 utf16 m))) /\
        Z.of_nat (length utf16) <= INT_MAX /\
        ((what_of u = measure_message_utf8 /\
          fst (fst (measure_pass16to8 utf16 (platform m))) = 0) \/
         (what_of u = fill_message_utf8 /\
          0 < fst (fst (measure_pass16to8 utf16 (platform m))) /\
          fst (fst (fill_pass16to8 utf16
                      (fst (fst (measure_pass16to8 utf16 (platform m))))
                      (snd (measure_pass16to8 utf16 (platform m))))) = 0)))) /\
  (forall (utf8 : list char) (m : Machine),
     (forall r, fst (Utf16FromUtf8 utf8 m) = Throw (overflow_error r) ->
        r = mk_runtime_error overflow_message /\
        INT_MAX < Z.of_nat (length utf8)) /\
     (forall u, fst (Utf16FromUtf8 utf8 m) = Throw (conversion_exception u) ->
        GetConversionType u = ConversionFromUtf8ToUtf16 /\
        GetErrorCode u =
          GetLastError (platform (snd (Utf16FromUtf8 utf8 m))) /\
        Z.of_nat (length utf8) <= INT_MAX /\
        ((what_of u = measure_message_utf16 /\
          fst (fst (measure_pass8to16 utf8 (platform m))) = 0) \/
         (what_of u = fill_message_utf16 /\
          0 < fst (fst (measure_pass8to16 utf8 (platform m))) /\
          fst (fst (fill_pass8to16 utf8
                      (fst (fst (measure_pass8to16 utf8 (platform m))))
                      (snd (measure_pass8to16 utf8 (platform m))))) = 0)))).
Proof.
  split.
  - intros utf16 m.
    destruct utf16 as [|w ws]; [split; discriminate|].
    set (s := w :: ws).
    destruct (Z_lt_le_dec INT_MAX (Z.of_nat (length s))) as [Hbig|Hfit].
    { rewrite (Utf8FromUtf16_overflow s m Hbig). cbn [fst].
      split; [|discriminate]. intros r Hr. injection Hr as <-. now split. }
    rewrite Utf8FromUtf16_run by (subst s; congruence || exact Hfit).
    unfold Utf8FromUtf16_paths.
    destruct (measure_pass16to8 s (platform m)) as [[r1 w1] p1].
    cbn [fst snd].
    destruct (Z.eqb_spec r1 0) as [Hz|Hnz].
    { cbn [fst snd platform]. split; [discriminate|].
      intros u Hu. injection Hu as <-.
      repeat split; [exact Hfit | left; now split]. }
    destruct (Z.ltb_spec r1 0) as [Hneg|Hpos].
    { cbn [fst]. split; discriminate. }
    destruct (fill_pass16to8 s r1 p1) as [[r2 w2] p2]. cbn [fst].
    destruct (Z.eqb_spec r2 0) as [Hz2|Hnz2]; [|split; discriminate].
    cbn [fst snd platform]. split; [discriminate|].
    intros u Hu. injection Hu as <-.
    repeat split; [exact Hfit | right; repeat split; (lia || assumption)].
  - intros utf8 m.
    destruct utf8 as [|b bs]; [split; discriminate|].
    set (s := b :: bs).
    destruct (Z_lt_le_dec INT_MAX (Z.of_nat (length s))) as [Hbig|Hfit].
    { rewrite (Utf16FromUtf8_overflow s m Hbig). cbn [fst].
      split; [|discriminate]. intros r Hr. injection Hr as <-. now split. }
    rewrite Utf16FromUtf8_run by (subst s; congruence || exact Hfit).
    unfold Utf16FromUtf8_paths.
    destruct (measure_pass8to16 s (platform m)) as [[r1 w1] p1].
    cbn [fst snd].
    destruct (Z.eqb_spec r1 0) as [Hz|Hnz].
    { cbn [fst snd platform]. split; [discriminate|].
      intros u Hu. injection Hu as <-.
      repeat split; [exact Hfit | left; now split]. }
    destruct (Z.ltb_spec r1 0) as [Hneg|Hpos].
    { cbn [fst]. split; discriminate. }
    destruct (fill_pass8to16 s r1 p1) as [[r2 w2] p2]. cbn [fst].
    destruct (Z.eqb_spec r2 0) as [Hz2|Hnz2]; [|split; discriminate].
    cbn [fst snd platform]. split; [discriminate|].
    intros u Hu. injection Hu as <-.
    repeat split; [exact Hfit | right; repeat split; (lia || assumption)].
Qed.

(** X4: [GetLastError] is read exactly when a pass of the primitive has
    failed: the calls of a run that throws a [UnicodeConversionException]
    end with one call of [GetLastError], and no other run calls it. *)
Theorem last_error_read_on_failure_only :
  (forall (utf16 : list wchar_t) (m : Machine),
     reads_last_error_on_failure_only (fst (Utf8FromUtf16 utf16 m))
       (calls m (Utf8FromUtf16 utf16 m))) /\
  (forall (utf8 : list char) (m : Machine),
     reads_last_error_on_failure_only (fst (Utf16FromUtf8 utf8 m))
       (calls m (Utf16FromUtf8 utf8 m))).
Proof.
  split.
  - intros utf16 m.
    destruct utf16 as [|w ws].
    { rewrite (calls_appended m _ []) by (cbn; now rewrite app_nil_r).
      cbn. tauto. }
    set (s := w :: ws).
    destruct (Z_lt_le_dec INT_MAX (Z.of_nat (length s))) as [Hbig|Hfit].
    { rewrite (Utf8FromUtf16_overflow s m Hbig).
      erewrite calls_appended by reflexivity.
      cbn. intuition discriminate. }
    rewrite Utf8FromUtf16_run by (subst s; congruence || exact Hfit).
    unfold Utf8FromUtf16_paths.
    destruct (measure_pass16to8 s (platform m)) as [[r1 w1] p1].
    destruct (r1 =? 0).
    { erewrite calls_appended by reflexivity. cbn [fst].
      cbn [reads_last_error_on_failure_only conversion_error].
      eexists. split; [reflexivity|]. cbn. intuition discriminate. }
    destruct (r1 <? 0).
    { erewrite calls_appended by reflexivity.
      cbn. intuition discriminate. }
    destruct (fill_pass16to8 s r1 p1) as [[r2 w2] p2].
    destruct (r2 =? 0).
    { erewrite calls_appended by reflexivity. cbn [fst].
      cbn [reads_last_error_on_failure_only conversion_error].
      eexists. split; [reflexivity|]. cbn. intuition discriminate. }
    erewrite calls_appended by reflexivity.
    cbn. intuition discriminate.
  - intros utf8 m.
    destruct utf8 as [|b bs].
    { rewrite (calls_appended m _ []) by (cbn; now rewrite app_nil_r).
      cbn. tauto. }
    set (s := b :: bs).
    destruct (Z_lt_le_dec INT_MAX (Z.of_nat (length s))) as [Hbig|Hfit].
    { rewrite (Utf16FromUtf8_overflow s m Hbig).
      erewrite calls_appended by reflexivity.
      cbn. intuition discriminate. }
    rewrite Utf16FromUtf8_run by (subst s; congruence || exact Hfit).
    unfold Utf16FromUtf8_paths.
    destruct (measure_pass8to16 s (platform m)) as [[r1 w1] p1].
    destruct (r1 =? 0).
    { erewrite calls_appended by reflexivity. cbn [fst].
      cbn [reads_last_error_on_failure_only conversion_error].
      eexists. split; [reflexivity|]. cbn. intuition discriminate. }
    destruct (r1 <? 0).
    { erewrite calls_appended by reflexivity.
      cbn. intuition discriminate. }
    destruct (fill_pass8to16 s r1 p1) as [[r2 w2] p2].
    destruct (r2 =? 0).
    { erewrite calls_appended by reflexivity. cbn [fst].
      cbn [reads_last_error_on_failure_only conversion_error].
      eexists. split; [reflexivity|]. cbn. intuition discriminate. }
    erewrite calls_appended by reflexivity.
    cbn. intuition discriminate.
Qed.

(** X5: the result of a successful conversion is the buffer the fill pass
    has written to, which starts as [utf8Length] units ['\0']: when the
    primitive writes no more units than it has measured, the result is what
    it wrote, followed by ['\0'] up to the measured length; in particular
    it is exactly what the primitive wrote when that has the measured
    length. *)
Theorem result_is_the_filled_buffer :
  (forall (utf16 : list wchar_t) (m : Machine) r1 w1 p1 r2 w2 p2,
     utf16 <> [] -> Z.of_nat (length utf16) <= INT_MAX ->
     measure_pass16to8 utf16 (platform m) = (r1, w1, p1) -> 0 < r1 ->
     fill_pass16to8 utf16 r1 p1 = (r2, w2, p2) -> r2 <> 0 ->
     Z.of_nat (length w2) <= r1 ->
     Utf8FromUtf16 utf16 m =
     (Return (w2 ++ repeat 0 (Z.to_nat r1 - length w2)),
      mk_Machine p2
        (log m ++ steps16to8 (Z.of_nat (length utf16)) r1))) /\
  (forall (utf8 : list char) (m : Machine) r1 w1 p1 r2 w2 p2,
     utf8 <> [] -> Z.of_nat (length utf8) <= INT_MAX ->
     measure_pass8to16 utf8 (platform m) = (r1, w1, p1) -> 0 < r1 ->
     fill_pass8to16 utf8 r1 p1 = (r2, w2, p2) -> r2 <> 0 ->
     Z.of_nat (length w2) <= r1 ->
     Utf16FromUtf8 utf8 m =
     (Return (w2 ++ repeat 0 (Z.to_nat r1 - length w2)),
      mk_Machine p2
        (log m ++ steps8to16 (Z.of_nat (length utf8)) r1))).
Proof.
  split.
  - intros utf16 m r1 w1 p1 r2 w2 p2 Hne Hlen Hm Hr1 Hf Hr2 Hw.
    rewrite Utf8FromUtf16_run by assumption.
    unfold Utf8FromUtf16_paths. rewrite Hm.
    destruct (Z.eqb_spec r1 0) as [?|_]; [lia|].
    destruct (Z.ltb_spec r1 0) as [?|_]; [lia|].
    rewrite Hf. destruct (Z.eqb_spec r2 0) as [?|_]; [contradiction|].
    now rewrite store_padded by lia.
  - intros utf8 m r1 w1 p1 r2 w2 p2 Hne Hlen Hm Hr1 Hf Hr2 Hw.
    rewrite Utf16FromUtf8_run by assumption.
    unfold Utf16FromUtf8_paths. rewrite Hm.
    destruct (Z.eqb_spec r1 0) as [?|_]; [lia|].
    destruct (Z.ltb_spec r1 0) as [?|_]; [lia|].
    rewrite Hf. destruct (Z.eqb_spec r2 0) as [?|_]; [contradiction|].
    now rewrite store_padded by lia.
Qed.

End MoreConversionFacts.

Lemma exceptions_name_their_cause_witness :
  GetConversionType
    (UnicodeConversionException_ctor 1113 ConversionFromUtf16ToUtf8
       measure_message_utf8) = ConversionFromUtf16ToUtf8 /\
  GetErrorCode
    (UnicodeConversionException_ctor 1113 ConversionFromUtf16ToUtf8
       measure_message_utf8) =
    GetLastError
      (platform
         (snd (Utf8FromUtf16 [0xD800]
                 (Scripted.start [Scripted.mk_Answer 0 [] 1113])))) /\
  Z.of_nat (length [0xD800]) <= INT_MAX /\
  ((what_of
      (UnicodeConversionException_ctor 1113 ConversionFromUtf16ToUtf8
         measure_message_utf8) = measure_message_utf8 /\
    fst (fst (measure_pass16to8 [0xD800]
                (platform (Scripted.start [Scripted.mk_Answer 0 [] 1113])))) = 0) \/
   (what_of
      (UnicodeConversionException_ctor 1113 ConversionFromUtf16ToUtf8
         measure_message_utf8) = fill_message_utf8 /\
    0 < fst (fst (measure_pass16to8 [0xD800]
                    (platform (Scripted.start [Scripted.mk_Answer 0 [] 1113])))) /\
    fst (fst (fill_pass16to8 [0xD800]
                (fst (fst (measure_pass16to8 [0xD800]
                             (platform (Scripted.start [Scripted.mk_Answer 0 [] 1113])))))
                (snd (measure_pass16to8 [0xD800]
                        (platform (Scripted.start [Scripted.mk_Answer 0 [] 1113])))))) = 0)).
Proof.
  apply (proj2 (proj1 (@exceptions_name_their_cause Scripted.Platform Scripted.api)
                  [0xD800] (Scripted.start [Scripted.mk_Answer 0 [] 1113]))).
  reflexivity.
Defined.

Lemma result_is_the_filled_buffer_witness :
  Utf8FromUtf16 [0x5B66]
    (Scripted.start [Scripted.mk_Answer 3 [] 0;
                     Scripted.mk_Answer 2 [0xC3; 0xA9] 0]) =
  (Return ([0xC3; 0xA9] ++ repeat 0 (Z.to_nat 3 - length [0xC3; 0xA9])),
   mk_Machine (Scripted.mk_Platform [] 0)
     ([] ++ steps16to8 (Z.of_nat (length [0x5B66])) 3)).
Proof.
  apply (proj1 (@result_is_the_filled_buffer Scripted.Platform Scripted.api)
           [0x5B66]
           (Scripted.start [Scripted.mk_Answer 3 [] 0;
                            Scripted.mk_Answer 2 [0xC3; 0xA9] 0])
           3 [] (Scripted.mk_Platform [Scripted.mk_Answer 2 [0xC3; 0xA9] 0] 0)
           2 [0xC3; 0xA9] (Scripted.mk_Platform [] 0));
    [discriminate | vm_compute; discriminate | reflexivity | lia
    | reflexivity | lia | vm_compute; discriminate].
Defined.

(** ** The transcoding primitive, continued *)

Module TranscodingFacts.
Import Reference.
Import ReferenceFacts.

(** Reading the UTF-16 form of a scalar value gives the scalar value. *)
Lemma utf16_scalars_encode (c : Z) (t : list Z) :
  is_scalar c = true ->
  utf16_scalars true (utf16_encode c ++ t) =
  option_map (cons c) (utf16_scalars true t).
Proof.
  intros Hc.
  assert (Hrange : 0 <= c < 0xD800 \/ 0xE000 <= c <= 0x10FFFF)
    by (ranges; lia).
  clear Hc. unfold utf16_encode.
  destruct (Z.ltb_spec c 0x10000) as [Hlow|Hhigh].
  - cbn [app]. apply utf16_scalars_unit.
    unfold is_bmp_scalar. apply orb_true_iff.
    destruct Hrange as [H|H]; [left | right];
      apply andb_true_iff; split;
      (apply Z.leb_le || apply Z.ltb_lt); lia.
  - cbn [app].
    pose proof (Z.div_mod (c - 0x10000) 0x400 ltac:(lia)) as Hdm.
    pose proof (Z.mod_pos_bound (c - 0x10000) 0x400 ltac:(lia)) as Hmod.
    assert (Hq : 0 <= (c - 0x10000) / 0x400 <= 0x3FF).
    { split; [apply Z.div_pos; lia|].
      apply Z.lt_succ_r, Z.div_lt_upper_bound; lia. }
    rewrite utf16_scalars_pair.
    + do 2 f_equal. lia.
    + unfold is_high_surrogate. apply andb_true_iff.
      split; apply Z.leb_le; lia.
    + unfold is_low_surrogate. apply andb_true_iff.
      split; apply Z.leb_le; lia.
Qed.

Lemma utf16_scalars_encode_app (cs : list Z) (t : list Z) :
  Forall (fun c => is_scalar c = true) cs ->
  utf16_scalars true (flat_map utf16_encode cs ++ t) =
  option_map (app cs) (utf16_scalars true t).
Proof.
  induction 1 as [|c cs Hc Hcs IH].
  - cbn [flat_map app]. now destruct (utf16_scalars true t).
  - cbn [flat_map]. rewrite <- app_assoc, (utf16_scalars_encode c _ Hc), IH.
    now destruct (utf16_scalars true t).
Qed.

Lemma utf16_scalars_encode_all (cs : list Z) :
  Forall (fun c => is_scalar c = true) cs ->
  utf16_scalars true (flat_map utf16_encode cs) = Some cs.
Proof.
  intros Hcs. rewrite <- (app_nil_r (flat_map utf16_encode cs)).
  rewrite (utf16_scalars_encode_app cs [] Hcs). cbn. now rewrite app_nil_r.
Qed.

Lemma utf8_scalars_encode_app (cs : list Z) (t : list Z) :
  Forall (fun c => is_scalar c = true) cs ->
  utf8_scalars true (flat_map utf8_encode cs ++ t) =
  option_map (app cs) (utf8_scalars true t).
Proof.
  induction 1 as [|c cs Hc Hcs IH].
  - cbn [flat_map app]. now destruct (utf8_scalars true t).
  - cbn [flat_map]. rewrite <- app_assoc, (utf8_scalars_encode c _ Hc), IH.
    now destruct (utf8_scalars true t).
Qed.

Lemma utf16_encode_length (c : Z) :
  Z.of_nat (length (utf16_encode c)) = if c <? 0x10000 then 1 else 2.
Proof. unfold utf16_encode. now destruct (c <? 0x10000). Qed.

(** The value of a two-byte, three-byte and four-byte sequence that the
    strict reader accepts: a scalar value in the range of that length, whose
    UTF-8 form is the sequence itself. *)
Lemma two_byte_value (b0 b1 : Z) :
  between 0xC2 b0 0xDF = true -> is_continuation b1 = true ->
  0x80 <= (b0 - 0xC0) * 0x40 + (b1 - 0x80) < 0x800 /\
  utf8_encode ((b0 - 0xC0) * 0x40 + (b1 - 0x80)) = [b0; b1].
Proof.
  intros H0 H1. ranges.
  set (c := (b0 - 0xC0) * 0x40 + (b1 - 0x80)).
  assert (Hc : 0x80 <= c < 0x800) by (subst c; lia).
  split; [exact Hc|]. unfold utf8_encode.
  destruct (Z.ltb_spec c 0x80); [lia|].
  destruct (Z.ltb_spec c 0x800); [|lia].
  f_equal; [|f_equal]; subst c;
    Z.to_euclidean_division_equations; lia.
Qed.

Lemma three_byte_value (b0 b1 b2 : Z) :
  between 0xE0 b0 0xEF = true ->
  between (second_lo b0) b1 (second_hi b0) = true ->
  is_continuation b2 = true ->
  let c := (b0 - 0xE0) * 0x1000 + (b1 - 0x80) * 0x40 + (b2 - 0x80) in
  (0x800 <= c < 0xD800 \/ 0xE000 <= c < 0x10000) /\
  utf8_encode c = [b0; b1; b2].
Proof.
  intros H0 H1 H2 c. unfold second_lo, second_hi in H1.
  assert (Hb1 : 0x80 <= b1 <= 0xBF /\ (b0 = 0xE0 -> 0xA0 <= b1) /\
                (b0 = 0xED -> b1 <= 0x9F)).
  { ranges.
    destruct (Z.eqb_spec b0 0xE0); destruct (Z.eqb_spec b0 0xF0);
      destruct (Z.eqb_spec b0 0xED); destruct (Z.eqb_spec b0 0xF4); lia. }
  clear H1. ranges.
  assert (Hc : 0x800 <= c < 0xD800 \/ 0xE000 <= c < 0x10000)
    by (subst c; lia).
  split; [exact Hc|]. unfold utf8_encode.
  destruct (Z.ltb_spec c 0x80); [lia|].
  destruct (Z.ltb_spec c 0x800); [lia|].
  destruct (Z.ltb_spec c 0x10000); [|lia].
  f_equal; [|f_equal; [|f_equal]]; subst c;
    Z.to_euclidean_division_equations; lia.
Qed.

Lemma four_byte_value (b0 b1 b2 b3 : Z) :
  between 0xF0 b0 0xF4 = true ->
  between (second_lo b0) b1 (second_hi b0) = true ->
  is_continuation b2 = true -> is_continuation b3 = true ->
  let c := (b0 - 0xF0) * 0x40000 + (b1 - 0x80) * 0x1000
           + (b2 - 0x80) * 0x40 + (b3 - 0x80) in
  0x10000 <= c <= 0x10FFFF /\
  utf8_encode c = [b0; b1; b2; b3].
Proof.
  intros H0 H1 H2 H3 c. unfold second_lo, second_hi in H1.
  assert (Hb1 : 0x80 <= b1 <= 0xBF /\ (b0 = 0xF0 -> 0x90 <= b1) /\
                (b0 = 0xF4 -> b1 <= 0x8F)).
  { ranges.
    destruct (Z.eqb_spec b0 0xE0); destruct (Z.eqb_spec b0 0xF0);
      destruct (Z.eqb_spec b0 0xED); destruct (Z.eqb_spec b0 0xF4); lia. }
  clear H1. ranges.
  assert (Hc : 0x10000 <= c <= 0x10FFFF) by (subst c; lia).
  split; [exact Hc|]. unfold utf8_encode.
  destruct (Z.ltb_spec c 0x80); [lia|].
  destruct (Z.ltb_spec c 0x800); [lia|].
  destruct (Z.ltb_spec c 0x10000); [lia|].
  f_equal; [|f_equal; [|f_equal; [|f_equal]]]; subst c;
    Z.to_euclidean_division_equations; lia.
Qed.

Lemma scalar_of_range (c : Z) :
  0 <= c < 0xD800 \/ 0xE000 <= c <= 0x10FFFF -> is_scalar c = true.
Proof.
  intros H. unfold is_scalar. apply orb_true_iff.
  destruct H; [left | right]; apply andb_true_iff; split;
    (apply Z.leb_le || apply Z.ltb_lt); lia.
Qed.

Lemma utf16_size_cons (b : Z) (s : list Z) :
  utf16_size (b :: s) = utf16_units b + utf16_size s.
Proof. reflexivity. Qed.

Lemma utf16_units_lead1 (b : Z) :
  between 0x00 b 0x7F = true \/ between 0xC2 b 0xDF = true \/
  between 0xE0 b 0xEF = true -> utf16_units b = 1.
Proof.
  intros H. unfold utf16_units.
  destruct (Z.ltb_spec b 0x80); [reflexivity|].
  destruct (Z.ltb_spec b 0xC0); [destruct H as [H|[H|H]]; ranges; lia|].
  destruct (Z.ltb_spec b 0xF0); [reflexivity|].
  destruct H as [H|[H|H]]; ranges; lia.
Qed.

Lemma utf16_units_lead2 (b : Z) :
  between 0xF0 b 0xF4 = true -> utf16_units b = 2.
Proof.
  intros H. unfold utf16_units. ranges.
  destruct (Z.ltb_spec b 0x80); [lia|].
  destruct (Z.ltb_spec b 0xC0); [lia|].
  destruct (Z.ltb_spec b 0xF0); [lia | reflexivity].
Qed.

Lemma utf16_units_continuation (b : Z) :
  between 0x80 b 0xBF = true -> utf16_units b = 0.
Proof.
  intros H. unfold utf16_units. ranges.
  destruct (Z.ltb_spec b 0x80); [lia|].
  destruct (Z.ltb_spec b 0xC0); [reflexivity | lia].
Qed.

Lemma second_byte_continuation (b0 b1 : Z) :
  between (second_lo b0) b1 (second_hi b0) = true ->
  between 0x80 b1 0xBF = true.
Proof.
  unfold second_lo, second_hi. intros H. apply between_true. ranges.
  destruct (Z.eqb_spec b0 0xE0); destruct (Z.eqb_spec b0 0xF0);
    destruct (Z.eqb_spec b0 0xED); destruct (Z.eqb_spec b0 0xF4); lia.
Qed.

(** The characters that the strict UTF-8 reader gives are scalar values;
    writing them back gives the bytes read, and their UTF-16 form has
    [utf16_size] code units. *)
Lemma utf8_scalars_sound_bounded (n : nat) :
  forall (u cs : list Z),
    (length u <= n)%nat -> utf8_scalars true u = Some cs ->
    Forall (fun c => is_scalar c = true) cs /\
    flat_map utf8_encode cs = u /\
    Z.of_nat (length (flat_map utf16_encode cs)) = utf16_size u.
Proof.
  induction n as [|n IH]; intros u cs Hlen Hdec.
  - destruct u; [|cbn [length] in Hlen; lia].
    injection Hdec as <-. repeat split. constructor.
  - destruct u as [|b0 t0].
    { injection Hdec as <-. repeat split. constructor. }
    cbn [utf8_scalars] in Hdec. cbn [length] in Hlen.
    destruct (between 0x00 b0 0x7F) eqn:Ha.
    { destruct (utf8_scalars true t0) as [cs'|] eqn:Hrest; [|discriminate].
      injection Hdec as <-.
      destruct (IH t0 cs') as (Hsc & Henc & Hsize); [lia | exact Hrest |].
      assert (Hb : 0 <= b0 <= 0x7F) by (ranges; lia).
      repeat split.
      - constructor; [apply scalar_of_range; lia | exact Hsc].
      - cbn [flat_map]. rewrite Henc. unfold utf8_encode.
        destruct (Z.ltb_spec b0 0x80); [reflexivity | lia].
      - cbn [flat_map]. rewrite length_app, Nat2Z.inj_add, Hsize.
        rewrite utf16_encode_length, utf16_size_cons.
        rewrite (utf16_units_lead1 b0) by (left; apply between_true; lia).
        destruct (Z.ltb_spec b0 0x10000); lia. }
    destruct (between 0xC2 b0 0xDF) eqn:Hb.
    { destruct t0 as [|b1 t1]; [discriminate|].
      destruct (is_continuation b1) eqn:H1; [|discriminate].
      destruct (utf8_scalars true t1) as [cs'|] eqn:Hrest; [|discriminate].
      injection Hdec as <-.
      destruct (IH t1 cs') as (Hsc & Henc & Hsize);
        [cbn [length] in Hlen; lia | exact Hrest |].
      destruct (two_byte_value b0 b1 Hb H1) as (Hc & Hbytes).
      repeat split.
      - constructor; [apply scalar_of_range; lia | exact Hsc].
      - cbn [flat_map]. now rewrite Hbytes, Henc.
      - cbn [flat_map]. rewrite length_app, Nat2Z.inj_add, Hsize.
        rewrite utf16_encode_length, !utf16_size_cons.
        rewrite (utf16_units_lead1 b0) by tauto.
        rewrite (utf16_units_continuation b1 H1).
        destruct (Z.ltb_spec ((b0 - 0xC0) * 0x40 + (b1 - 0x80)) 0x10000); lia. }
    destruct (between 0xE0 b0 0xEF) eqn:Hc.
    { destruct t0 as [|b1 [|b2 t2]]; try discriminate.
      destruct (between (second_lo b0) b1 (second_hi b0)) eqn:H1;
        [|discriminate].
      destruct (is_continuation b2) eqn:H2; [|discriminate].
      cbn [andb] in Hdec.
      destruct (utf8_scalars true t2) as [cs'|] eqn:Hrest; [|discriminate].
      injection Hdec as <-.
      destruct (IH t2 cs') as (Hsc & Henc & Hsize);
        [cbn [length] in Hlen; lia | exact Hrest |].
      destruct (three_byte_value b0 b1 b2 Hc H1 H2) as (Hv & Hbytes).
      repeat split.
      - constructor; [apply scalar_of_range; lia | exact Hsc].
      - cbn [flat_map]. now rewrite Hbytes, Henc.
      - cbn [flat_map]. rewrite length_app, Nat2Z.inj_add, Hsize.
        rewrite utf16_encode_length, !utf16_size_cons.
        rewrite (utf16_units_lead1 b0) by tauto.
        rewrite (utf16_units_continuation b1 (second_byte_continuation _ _ H1)).
        rewrite (utf16_units_continuation b2 H2).
        match goal with
        | |- context [ ?a <? 0x10000 ] => destruct (Z.ltb_spec a 0x10000)
        end; lia. }
    destruct (between 0xF0 b0 0xF4) eqn:Hd; [|discriminate].
    destruct t0 as [|b1 [|b2 [|b3 t3]]]; try discriminate.
    destruct (between (second_lo b0) b1 (second_hi b0)) eqn:H1;
      [|discriminate].
    destruct (is_continuation b2) eqn:H2; [|discriminate].
    destruct (is_continuation b3) eqn:H3; [|discriminate].
    cbn [andb] in Hdec.
    destruct (utf8_scalars true t3) as [cs'|] eqn:Hrest; [|discriminate].
    injection Hdec as <-.
    destruct (IH t3 cs') as (Hsc & Henc & Hsize);
      [cbn [length] in Hlen; lia | exact Hrest |].
    destruct (four_byte_value b0 b1 b2 b3 Hd H1 H2 H3) as (Hv & Hbytes).
    repeat split.
    + constructor; [apply scalar_of_range; lia | exact Hsc].
    + cbn [flat_map]. now rewrite Hbytes, Henc.
    + cbn [flat_map]. rewrite length_app, Nat2Z.inj_add, Hsize.
      rewrite utf16_encode_length, !utf16_size_cons.
      rewrite (utf16_units_lead2 b0 Hd).
      rewrite (utf16_units_continuation b1 (second_byte_continuation _ _ H1)).
      rewrite (utf16_units_continuation b2 H2).
      rewrite (utf16_units_continuation b3 H3).
      match goal with
      | |- context [ ?a <? 0x10000 ] => destruct (Z.ltb_spec a 0x10000)
      end; lia.
Qed.

Lemma utf8_scalars_sound (u cs : list Z) :
  utf8_scalars true u = Some cs ->
  Forall (fun c => is_scalar c = true) cs /\
  flat_map utf8_encode cs = u /\
  Z.of_nat (length (flat_map utf16_encode cs)) = utf16_size u.
Proof. apply (utf8_scalars_sound_bounded (length u)). lia. Qed.

(** For the same characters, the UTF-8 form has between one and three times
    as many code units as the UTF-16 form. *)
Lemma encoded_lengths (cs : list Z) :
  Forall (fun c => is_scalar c = true) cs ->
  Z.of_nat (length (flat_map utf16_encode cs)) <=
    Z.of_nat (length (flat_map utf8_encode cs)) /\
  Z.of_nat (length (flat_map utf8_encode cs)) <=
    3 * Z.of_nat (length (flat_map utf16_encode cs)).
Proof.
  induction 1 as [|c cs Hc Hcs IH]; [cbn; lia|].
  cbn [flat_map]. rewrite !length_app, !Nat2Z.inj_add.
  rewrite utf8_encode_length, utf16_encode_length.
  destruct (Z.ltb_spec c 0x80); destruct (Z.ltb_spec c 0x800);
    destruct (Z.ltb_spec c 0x10000); lia.
Qed.

(** A NUL code unit appears in either form exactly when U+0000 is among the
    characters. *)
Lemma utf8_encode_nul (c : Z) :
  is_scalar c = true -> (In 0 (utf8_encode c) <-> c = 0).
Proof.
  intros Hc.
  assert (Hrange : 0 <= c < 0xD800 \/ 0xE000 <= c <= 0x10FFFF)
    by (ranges; lia).
  clear Hc. unfold utf8_encode.
  destruct (Z.ltb_spec c 0x80).
  { cbn [In]. intuition lia. }
  assert (Hnot : forall l : list Z, Forall (fun b => 0x80 <= b) l -> ~ In 0 l).
  { intros l Hl Hin. apply (proj1 (Forall_forall _ _) Hl) in Hin. lia. }
  split; [|lia]. intros Hin. exfalso. revert Hin. apply Hnot.
  destruct (Z.ltb_spec c 0x800); [|destruct (Z.ltb_spec c 0x10000)];
    repeat constructor; Z.to_euclidean_division_equations; lia.
Qed.

Lemma utf16_encode_nul (c : Z) :
  is_scalar c = true -> (In 0 (utf16_encode c) <-> c = 0).
Proof.
  intros Hc.
  assert (Hrange : 0 <= c < 0xD800 \/ 0xE000 <= c <= 0x10FFFF)
    by (ranges; lia).
  clear Hc. unfold utf16_encode.
  destruct (Z.ltb_spec c 0x10000).
  { cbn [In]. intuition lia. }
  split; [|lia]. cbn [In]. intros [Hz|[Hz|[]]]; exfalso;
    revert Hz; Z.to_euclidean_division_equations; lia.
Qed.

Lemma encoded_nul (encode : Z -> list Z) (cs : list Z) :
  (forall c, is_scalar c = true -> (In 0 (encode c) <-> c = 0)) ->
  Forall (fun c => is_scalar c = true) cs ->
  (In 0 (flat_map encode cs) <-> In 0 cs).
Proof.
  intros Henc Hcs. rewrite in_flat_map. split.
  - intros (c & Hin & H0).
    apply (proj1 (Forall_forall _ _) Hcs) in Hin as Hsc.
    apply (Henc c Hsc) in H0. now subst c.
  - intros Hin. exists 0. split; [exact Hin|].
    apply (Henc 0); [|reflexivity].
    exact (proj1 (Forall_forall _ _) Hcs 0 Hin).
Qed.

(** What [Utf8FromUtf16] has returned comes from the characters of the
    source. *)
Lemma Utf8FromUtf16_returned (s r : list Z) (m : @Machine Platform) :
  fst (Utf8FromUtf16 s m) = Return r ->
  exists cs,
    utf16_scalars true s = Some cs /\ r = flat_map utf8_encode cs /\
    Z.of_nat (length s) <= INT_MAX /\ Z.of_nat (length r) <= INT_MAX.
Proof.
  intros Hrun. destruct s as [|w ws].
  { injection Hrun as <-. exists []. repeat split; cbn; unfold INT_MAX; lia. }
  set (s := w :: ws) in *.
  assert (Hne : s <> []) by (subst s; discriminate).
  destruct (Z_lt_le_dec INT_MAX (Z.of_nat (length s))) as [Hbig|Hfit].
  { rewrite (Utf8FromUtf16_overflow s m Hbig) in Hrun. discriminate. }
  destruct (utf16_scalars true s) as [cs|] eqn:Hcs.
  2:{ rewrite (Utf8FromUtf16_rejected s m Hne Hfit Hcs) in Hrun.
      discriminate. }
  exists cs. split; [reflexivity|].
  set (out := flat_map utf8_encode cs) in *.
  destruct (Z_lt_le_dec INT_MAX (Z.of_nat (length out))) as [Hlong|Hshort].
  { exfalso. revert Hrun.
    rewrite Utf8FromUtf16_run by assumption.
    unfold Utf8FromUtf16_paths. rewrite measure_pass16to8_reference.
    rewrite WideCharToMultiByte_strict by (assumption || lia).
    rewrite Hcs. cbn [option_map]. fold out. unfold deliver.
    destruct (Z.gtb_spec (Z.of_nat (length out)) INT_MAX); [|lia].
    discriminate. }
  destruct (Z.eq_dec (Z.of_nat (length out)) 0) as [Hzero|Hpos].
  { exfalso. revert Hrun.
    rewrite Utf8FromUtf16_run by assumption.
    unfold Utf8FromUtf16_paths. rewrite measure_pass16to8_reference.
    rewrite WideCharToMultiByte_strict by (assumption || lia).
    rewrite Hcs. cbn [option_map]. fold out.
    rewrite deliver_measure by lia. rewrite Hzero. discriminate. }
  rewrite (Utf8FromUtf16_accepted s cs m Hne Hfit Hcs) in Hrun
    by (fold out; lia).
  injection Hrun as <-. repeat split; assumption.
Qed.

Lemma Utf16FromUtf8_returned (s r : list Z) (m : @Machine Platform) :
  fst (Utf16FromUtf8 s m) = Return r ->
  exists cs,
    utf8_scalars true s = Some cs /\ r = flat_map utf16_encode cs /\
    Z.of_nat (length s) <= INT_MAX /\ Z.of_nat (length r) <= INT_MAX.
Proof.
  intros Hrun. destruct s as [|b bs].
  { injection Hrun as <-. exists []. repeat split; cbn; unfold INT_MAX; lia. }
  set (s := b :: bs) in *.
  assert (Hne : s <> []) by (subst s; discriminate).
  destruct (Z_lt_le_dec INT_MAX (Z.of_nat (length s))) as [Hbig|Hfit].
  { rewrite (Utf16FromUtf8_overflow s m Hbig) in Hrun. discriminate. }
  destruct (utf8_scalars true s) as [cs|] eqn:Hcs.
  2:{ rewrite (Utf16FromUtf8_rejected s m Hne Hfit Hcs) in Hrun.
      discriminate. }
  exists cs. split; [reflexivity|].
  set (out := flat_map utf16_encode cs) in *.
  destruct (Z_lt_le_dec INT_MAX (Z.of_nat (length out))) as [Hlong|Hshort].
  { exfalso. revert Hrun.
    rewrite Utf16FromUtf8_run by assumption.
    unfold Utf16FromUtf8_paths. rewrite measure_pass8to16_reference.
    rewrite MultiByteToWideChar_strict by (assumption || lia).
    rewrite Hcs. cbn [option_map]. fold out. unfold deliver.
    destruct (Z.gtb_spec (Z.of_nat (length out)) INT_MAX); [|lia].
    discriminate. }
  destruct (Z.eq_dec (Z.of_nat (length out)) 0) as [Hzero|Hpos].
  { exfalso. revert Hrun.
    rewrite Utf16FromUtf8_run by assumption.
    unfold Utf16FromUtf8_paths. rewrite measure_pass8to16_reference.
    rewrite MultiByteToWideChar_strict by (assumption || lia).
    rewrite Hcs. cbn [option_map]. fold out.
    rewrite deliver_measure by lia. rewrite Hzero. discriminate. }
  rewrite (Utf16FromUtf8_accepted s cs m Hne Hfit Hcs) in Hrun
    by (fold out; lia).
  injection Hrun as <-. repeat split; assumption.
Qed.

(** The characters of what a conversion has returned: those of the source,
    all of them scalar values, of which the source and the result are the
    two forms. *)
Lemma Utf8FromUtf16_characters (s r : list Z) (m : @Machine Platform) :
  fst (Utf8FromUtf16 s m) = Return r ->
  exists cs,
    Forall (fun c => is_scalar c = true) cs /\
    s = flat_map utf16_encode cs /\ r = flat_map utf8_encode cs /\
    WellFormed16 s /\ Z.of_nat (length r) = utf8_size s /\
    Z.of_nat (length r) <= INT_MAX.
Proof.
  intros Hrun.
  destruct (Utf8FromUtf16_returned s r m Hrun) as (cs & Hcs & -> & _ & Hfit).
  pose proof (utf16_scalars_strict_well_formed s cs Hcs) as Hwf.
  destruct (utf16_scalars_well_formed s Hwf) as (cs' & Hcs' & Hsc & Henc & Hlen).
  rewrite Hcs in Hcs'. injection Hcs' as <-.
  exists cs. repeat split; (assumption || now symmetry).
Qed.

Lemma Utf16FromUtf8_characters (s r : list Z) (m : @Machine Platform) :
  fst (Utf16FromUtf8 s m) = Return r ->
  exists cs,
    Forall (fun c => is_scalar c = true) cs /\
    s = flat_map utf8_encode cs /\ r = flat_map utf16_encode cs /\
    WellFormed8 s /\ Z.of_nat (length r) = utf16_size s /\
    Z.of_nat (length s) <= INT_MAX.
Proof.
  intros Hrun.
  destruct (Utf16FromUtf8_returned s r m Hrun) as (cs & Hcs & -> & Hfit & _).
  pose proof (utf8_scalars_strict_well_formed s cs Hcs) as Hwf.
  destruct (utf8_scalars_sound s cs Hcs) as (Hsc & Henc & Hlen).
  exists cs. repeat split; (assumption || now symmetry).
Qed.

(** A conversion of the two forms of the same characters. *)
Lemma Utf8FromUtf16_of_characters (cs : list Z) (m : @Machine Platform) :
  Forall (fun c => is_scalar c = true) cs ->
  Z.of_nat (length (flat_map utf8_encode cs)) <= INT_MAX ->
  Utf8FromUtf16 (flat_map utf16_encode cs) m =
  (Return (flat_map utf8_encode cs),
   if empty (flat_map utf16_encode cs) then m
   else mk_Machine (platform m)
          (log m ++ steps16to8 (Z.of_nat (length (flat_map utf16_encode cs)))
                      (Z.of_nat (length (flat_map utf8_encode cs))))).
Proof.
  intros Hsc Hfit. pose proof (encoded_lengths cs Hsc) as [Hle Hge].
  destruct (flat_map utf16_encode cs) as [|w ws] eqn:Hs.
  { cbn [length] in Hge.
    destruct (flat_map utf8_encode cs); [reflexivity | cbn [length] in Hge; lia]. }
  rewrite <- Hs in *.
  assert (Hne : flat_map utf16_encode cs <> []) by (rewrite Hs; discriminate).
  replace (empty (flat_map utf16_encode cs)) with false by now rewrite Hs.
  apply nonempty_length in Hne as Hpos.
  apply Utf8FromUtf16_accepted; try assumption; try lia.
  now apply utf16_scalars_encode_all.
Qed.

Lemma Utf16FromUtf8_of_characters (cs : list Z) (m : @Machine Platform) :
  Forall (fun c => is_scalar c = true) cs ->
  Z.of_nat (length (flat_map utf8_encode cs)) <= INT_MAX ->
  Utf16FromUtf8 (flat_map utf8_encode cs) m =
  (Return (flat_map utf16_encode cs),
   if empty (flat_map utf8_encode cs) then m
   else mk_Machine (platform m)
          (log m ++ steps8to16 (Z.of_nat (length (flat_map utf8_encode cs)))
                      (Z.of_nat (length (flat_map utf16_encode cs))))).
Proof.
  intros Hsc Hfit. pose proof (encoded_lengths cs Hsc) as [Hle Hge].
  destruct (flat_map utf8_encode cs) as [|b bs] eqn:Hs.
  { cbn [length] in Hle.
    destruct (flat_map utf16_encode cs); [reflexivity | cbn [length] in Hle; lia]. }
  rewrite <- Hs in *.
  assert (Hne : flat_map utf8_encode cs <> []) by (rewrite Hs; discriminate).
  replace (empty (flat_map utf8_encode cs)) with false by now rewrite Hs.
  apply nonempty_length in Hne as Hpos.
  apply Utf16FromUtf8_accepted; try assumption; try lia.
  now apply utf8_scalars_encode_all.
Qed.

End TranscodingFacts.

(** ** The conversions on the reference platform, continued *)

(** X6: on the reference platform [Utf8FromUtf16] returns exactly for
    well-formed UTF-16 whose UTF-8 form has at most [INT_MAX] code units;
    what it returns is well-formed UTF-8 of [utf8_size] code units. *)
Theorem Utf8FromUtf16_accepts_iff (s : list wchar_t)
    (m : @Machine Reference.Platform) :
  ((exists r, fst (Utf8FromUtf16 s m) = Return r) <->
   (WellFormed16 s /\ utf8_size s <= INT_MAX)) /\
  (forall r, fst (Utf8FromUtf16 s m) = Return r ->
     WellFormed8 r /\ Z.of_nat (length r) = utf8_size s).
Proof.
  split; [split|].
  - intros [r Hrun].
    destruct (TranscodingFacts.Utf8FromUtf16_characters s r m Hrun)
      as (cs & _ & _ & _ & Hwf & Hlen & Hfit).
    split; [exact Hwf | lia].
  - intros [Hwf Hfit].
    destruct (ReferenceFacts.utf16_scalars_well_formed s Hwf)
      as (cs & _ & Hsc & Henc & Hlen).
    exists (flat_map Reference.utf8_encode cs). rewrite <- Henc.
    rewrite TranscodingFacts.Utf8FromUtf16_of_characters;
      [reflexivity | exact Hsc | lia].
  - intros r Hrun.
    destruct (TranscodingFacts.Utf8FromUtf16_characters s r m Hrun)
      as (cs & Hsc & _ & -> & _ & Hlen & _).
    split; [|exact Hlen].
    apply (ReferenceFacts.utf8_scalars_strict_well_formed _ cs).
    now apply ReferenceFacts.utf8_scalars_encode_all.
Qed.

(** X7: on the reference platform [Utf16FromUtf8] returns exactly for
    well-formed UTF-8 of at most [INT_MAX] code units; what it returns is
    well-formed UTF-16 of [utf16_size] code units. *)
Theorem Utf16FromUtf8_accepts_iff (s : list char)
    (m : @Machine Reference.Platform) :
  ((exists r, fst (Utf16FromUtf8 s m) = Return r) <->
   (WellFormed8 s /\ Z.of_nat (length s) <= INT_MAX)) /\
  (forall r, fst (Utf16FromUtf8 s m) = Return r ->
     WellFormed16 r /\ Z.of_nat (length r) = utf16_size s).
Proof.
  split; [split|].
  - intros [r Hrun].
    destruct (TranscodingFacts.Utf16FromUtf8_characters s r m Hrun)
      as (cs & _ & _ & _ & Hwf & _ & Hfit).
    split; assumption.
  - intros [Hwf Hfit].
    destruct (ReferenceFacts.well_formed_accepted s Hwf) as [cs Hcs].
    destruct (TranscodingFacts.utf8_scalars_sound s cs Hcs) as (Hsc & Henc & _).
    exists (flat_map Reference.utf16_encode cs). rewrite <- Henc.
    rewrite TranscodingFacts.Utf16FromUtf8_of_characters;
      [reflexivity | exact Hsc | now rewrite Henc].
  - intros r Hrun.
    destruct (TranscodingFacts.Utf16FromUtf8_characters s r m Hrun)
      as (cs & Hsc & _ & -> & _ & Hlen & _).
    split; [|exact Hlen].
    apply (ReferenceFacts.utf16_scalars_strict_well_formed _ cs).
    now apply TranscodingFacts.utf16_scalars_encode_all.
Qed.

(** X8: the round trip from UTF-8: for well-formed UTF-8 of at most
    [INT_MAX] code units, converting to UTF-16 and back returns the bytes one
    started from. *)
Theorem round_trip_back_identity (s : list char)
    (m : @Machine Reference.Platform) :
  WellFormed8 s -> Z.of_nat (length s) <= INT_MAX ->
  fst (round_trip_back s m) = Return s.
Proof.
  intros Hwf Hfit.
  destruct (ReferenceFacts.well_formed_accepted s Hwf) as [cs Hcs].
  destruct (TranscodingFacts.utf8_scalars_sound s cs Hcs) as (Hsc & Henc & _).
  unfold round_trip_back, bind. rewrite <- Henc in *.
  rewrite TranscodingFacts.Utf16FromUtf8_of_characters by assumption.
  now rewrite TranscodingFacts.Utf8FromUtf16_of_characters by assumption.
Qed.

Lemma round_trip_back_identity_witness :
  fst (round_trip_back [0x43; 0xC3; 0xA9; 0xE5; 0xAD; 0xA6; 0xF0; 0x9F; 0x98; 0x80]
         (Reference.start 0)) =
  Return [0x43; 0xC3; 0xA9; 0xE5; 0xAD; 0xA6; 0xF0; 0x9F; 0x98; 0x80].
Proof.
  apply round_trip_back_identity.
  - apply wf8_ascii; [reflexivity|].
    apply wf8_two; [reflexivity | reflexivity |].
    apply wf8_three_E1_EC; [reflexivity | reflexivity | reflexivity |].
    apply wf8_four_F0; [reflexivity | reflexivity | reflexivity |].
    constructor.
  - vm_compute. discriminate.
Defined.

(** X9: a returned UTF-8 string has at least as many code units as the
    UTF-16 string it stands for, and at most three times as many, whichever
    way the conversion goes. *)
Theorem converted_lengths :
  (forall (utf16 utf8 : list Z) (m : @Machine Reference.Platform),
     fst (Utf8FromUtf16 utf16 m) = Return utf8 ->
     Z.of_nat (length utf16) <= Z.of_nat (length utf8) /\
     Z.of_nat (length utf8) <= 3 * Z.of_nat (length utf16)) /\
  (forall (utf8 utf16 : list Z) (m : @Machine Reference.Platform),
     fst (Utf16FromUtf8 utf8 m) = Return utf16 ->
     Z.of_nat (length utf16) <= Z.of_nat (length utf8) /\
     Z.of_nat (length utf8) <= 3 * Z.of_nat (length utf16)).
Proof.
  split.
  - intros utf16 utf8 m Hrun.
    destruct (TranscodingFacts.Utf8FromUtf16_characters _ _ m Hrun)
      as (cs & Hsc & -> & -> & _).
    now apply TranscodingFacts.encoded_lengths.
  - intros utf8 utf16 m Hrun.
    destruct (TranscodingFacts.Utf16FromUtf8_characters _ _ m Hrun)
      as (cs & Hsc & -> & -> & _).
    now apply TranscodingFacts.encoded_lengths.
Qed.

Lemma converted_lengths_witness :
  (Z.of_nat (length [0x4A; 0x5B66; 0xD83D; 0xDE00]) <=
     Z.of_nat (length [0x4A; 0xE5; 0xAD; 0xA6; 0xF0; 0x9F; 0x98; 0x80]) /\
   Z.of_nat (length [0x4A; 0xE5; 0xAD; 0xA6; 0xF0; 0x9F; 0x98; 0x80]) <=
     3 * Z.of_nat (length [0x4A; 0x5B66; 0xD83D; 0xDE00])) /\
  (Z.of_nat (length [0x4A; 0x5B66; 0xD83D; 0xDE00]) <=
     Z.of_nat (length [0x4A; 0xE5; 0xAD; 0xA6; 0xF0; 0x9F; 0x98; 0x80]) /\
   Z.of_nat (length [0x4A; 0xE5; 0xAD; 0xA6; 0xF0; 0x9F; 0x98; 0x80]) <=
     3 * Z.of_nat (length [0x4A; 0x5B66; 0xD83D; 0xDE00])).
Proof.
  split.
  - apply (proj1 converted_lengths _ _ (Reference.start 0)). reflexivity.
  - apply (proj2 converted_lengths _ _ (Reference.start 0)). reflexivity.
Defined.

(** X10: a conversion neither adds nor drops a NUL: the result contains a
    code unit 0 exactly when the source does, so that for a source without
    one the length of the result is also its length as a C string. *)
Theorem nul_preserved :
  (forall (utf16 utf8 : list Z) (m : @Machine Reference.Platform),
     fst (Utf8FromUtf16 utf16 m) = Return utf8 ->
     (In 0 utf8 <-> In 0 utf16)) /\
  (forall (utf8 utf16 : list Z) (m : @Machine Reference.Platform),
     fst (Utf16FromUtf8 utf8 m) = Return utf16 ->
     (In 0 utf16 <-> In 0 utf8)).
Proof.
  split.
  - intros utf16 utf8 m Hrun.
    destruct (TranscodingFacts.Utf8FromUtf16_characters _ _ m Hrun)
      as (cs & Hsc & -> & -> & _).
    rewrite (TranscodingFacts.encoded_nul _ cs
               TranscodingFacts.utf8_encode_nul Hsc).
    now rewrite (TranscodingFacts.encoded_nul _ cs
                   TranscodingFacts.utf16_encode_nul Hsc).
  - intros utf8 utf16 m Hrun.
    destruct (TranscodingFacts.Utf16FromUtf8_characters _ _ m Hrun)
      as (cs & Hsc & -> & -> & _).
    rewrite (TranscodingFacts.encoded_nul _ cs
               TranscodingFacts.utf8_encode_nul Hsc).
    now rewrite (TranscodingFacts.encoded_nul _ cs
                   TranscodingFacts.utf16_encode_nul Hsc).
Qed.

Lemma nul_preserved_witness :
  (In 0 [0x41; 0x00; 0xE5; 0xAD; 0xA6] <-> In 0 [0x41; 0x00; 0x5B66]) /\
  (In 0 [0x41; 0x5B66] <-> In 0 [0x41; 0xE5; 0xAD; 0xA6]).
Proof.
  split.
  - apply (proj1 nul_preserved _ _ (Reference.start 0)). reflexivity.
  - apply (proj2 nul_preserved _ _ (Reference.start 0)). reflexivity.
Defined.

Lemma ascii_characters (s : list Z) :
  Forall is_ascii s ->
  Forall (fun c => is_scalar c = true) s /\
  flat_map Reference.utf16_encode s = s /\
  flat_map Reference.utf8_encode s = s.
Proof.
  induction 1 as [|c s Hc Hs (IHsc & IH16 & IH8)].
  - repeat split. constructor.
  - unfold is_ascii in Hc. repeat split.
    + constructor; [apply TranscodingFacts.scalar_of_range; lia | exact IHsc].
    + cbn [flat_map]. rewrite IH16. unfold Reference.utf16_encode.
      destruct (Z.ltb_spec c 0x10000); [reflexivity | lia].
    + cbn [flat_map]. rewrite IH8. unfold Reference.utf8_encode.
      destruct (Z.ltb_spec c 0x80); [reflexivity | lia].
Qed.

(** X11: ASCII text converts to itself: for code units that are all below
    0x80, and at most [INT_MAX] of them, each conversion returns the same
    numbers it was given. *)
Theorem ascii_identity (s : list Z) (m : @Machine Reference.Platform) :
  Forall is_ascii s -> Z.of_nat (length s) <= INT_MAX ->
  fst (Utf8FromUtf16 s m) = Return s /\
  fst (Utf16FromUtf8 s m) = Return s.
Proof.
  intros Hs Hfit. destruct (ascii_characters s Hs) as (Hsc & H16 & H8).
  pose proof (TranscodingFacts.Utf8FromUtf16_of_characters s m Hsc) as Hto8.
  pose proof (TranscodingFacts.Utf16FromUtf8_of_characters s m Hsc) as Hto16.
  rewrite H16, H8 in Hto8, Hto16.
  now rewrite Hto8, Hto16 by exact Hfit.
Qed.

Lemma ascii_identity_witness :
  fst (Utf8FromUtf16 [0x43; 0x69; 0x61; 0x6F; 0x20; 0x63; 0x69; 0x61; 0x6F]
         (Reference.start 0)) =
    Return [0x43; 0x69; 0x61; 0x6F; 0x20; 0x63; 0x69; 0x61; 0x6F] /\
  fst (Utf16FromUtf8 [0x43; 0x69; 0x61; 0x6F; 0x20; 0x63; 0x69; 0x61; 0x6F]
         (Reference.start 0)) =
    Return [0x43; 0x69; 0x61; 0x6F; 0x20; 0x63; 0x69; 0x61; 0x6F].
Proof.
  apply ascii_identity.
  - repeat constructor; unfold is_ascii; lia.
  - vm_compute. discriminate.
Defined.

(** X12: conversions follow concatenation: when two sources convert, their
    concatenation converts to the concatenation of the two results, as long
    as its UTF-8 side still has at most [INT_MAX] code units. *)
Theorem conversion_of_concatenation :
  (forall (s1 s2 r1 r2 : list Z) (m1 m2 m : @Machine Reference.Platform),
     fst (Utf8FromUtf16 s1 m1) = Return r1 ->
     fst (Utf8FromUtf16 s2 m2) = Return r2 ->
     Z.of_nat (length (r1 ++ r2)) <= INT_MAX ->
     fst (Utf8FromUtf16 (s1 ++ s2) m) = Return (r1 ++ r2)) /\
  (forall (s1 s2 r1 r2 : list Z) (m1 m2 m : @Machine Reference.Platform),
     fst (Utf16FromUtf8 s1 m1) = Return r1 ->
     fst (Utf16FromUtf8 s2 m2) = Return r2 ->
     Z.of_nat (length (s1 ++ s2)) <= INT_MAX ->
     fst (Utf16FromUtf8 (s1 ++ s2) m) = Return (r1 ++ r2)).
Proof.
  split.
  - intros s1 s2 r1 r2 m1 m2 m Hrun1 Hrun2 Hfit.
    destruct (TranscodingFacts.Utf8FromUtf16_characters _ _ m1 Hrun1)
      as (cs1 & Hsc1 & -> & -> & _).
    destruct (TranscodingFacts.Utf8FromUtf16_characters _ _ m2 Hrun2)
      as (cs2 & Hsc2 & -> & -> & _).
    rewrite <- !flat_map_app in *.
    rewrite TranscodingFacts.Utf8FromUtf16_of_characters;
      [reflexivity | | exact Hfit].
    apply Forall_app. now split.
  - intros s1 s2 r1 r2 m1 m2 m Hrun1 Hrun2 Hfit.
    destruct (TranscodingFacts.Utf16FromUtf8_characters _ _ m1 Hrun1)
      as (cs1 & Hsc1 & -> & -> & _).
    destruct (TranscodingFacts.Utf16FromUtf8_characters _ _ m2 Hrun2)
      as (cs2 & Hsc2 & -> & -> & _).
    rewrite <- !flat_map_app in *.
    rewrite TranscodingFacts.Utf16FromUtf8_of_characters;
      [reflexivity | | exact Hfit].
    apply Forall_app. now split.
Qed.

Lemma conversion_of_concatenation_witness :
  fst (Utf8FromUtf16 ([0x4A; 0x5B66] ++ [0xD83D; 0xDE00]) (Reference.start 0)) =
    Return ([0x4A; 0xE5; 0xAD; 0xA6] ++ [0xF0; 0x9F; 0x98; 0x80]) /\
  fst (Utf16FromUtf8 ([0x4A; 0xE5; 0xAD; 0xA6] ++ [0xF0; 0x9F; 0x98; 0x80])
         (Reference.start 0)) =
    Return ([0x4A; 0x5B66] ++ [0xD83D; 0xDE00]).
Proof.
  split.
  - apply (proj1 conversion_of_concatenation _ _ _ _
             (Reference.start 0) (Reference.start 0));
      [reflexivity | reflexivity | vm_compute; discriminate].
  - apply (proj2 conversion_of_concatenation _ _ _ _
             (Reference.start 0) (Reference.start 0));
      [reflexivity | reflexivity | vm_compute; discriminate].
Defined.

(** X13: conversions are injective: two sources that convert to the same
    result are the same source. *)
Theorem conversions_injective :
  (forall (s1 s2 r : list Z) (m1 m2 : @Machine Reference.Platform),
     fst (Utf8FromUtf16 s1 m1) = Return r ->
     fst (Utf8FromUtf16 s2 m2) = Return r -> s1 = s2) /\
  (forall (s1 s2 r : list Z) (m1 m2 : @Machine Reference.Platform),
     fst (Utf16FromUtf8 s1 m1) = Return r ->
     fst (Utf16FromUtf8 s2 m2) = Return r -> s1 = s2).
Proof.
  split.
  - intros s1 s2 r m1 m2 Hrun1 Hrun2.
    destruct (TranscodingFacts.Utf8FromUtf16_characters _ _ m1 Hrun1)
      as (cs1 & Hsc1 & -> & Hr1 & _).
    destruct (TranscodingFacts.Utf8FromUtf16_characters _ _ m2 Hrun2)
      as (cs2 & Hsc2 & -> & Hr2 & _).
    pose proof (ReferenceFacts.utf8_scalars_encode_all cs1 Hsc1) as H1.
    pose proof (ReferenceFacts.utf8_scalars_encode_all cs2 Hsc2) as H2.
    rewrite <- Hr1 in H1. rewrite <- Hr2 in H2.
    rewrite H1 in H2. now injection H2 as ->.
  - intros s1 s2 r m1 m2 Hrun1 Hrun2.
    destruct (TranscodingFacts.Utf16FromUtf8_characters _ _ m1 Hrun1)
      as (cs1 & Hsc1 & -> & Hr1 & _).
    destruct (TranscodingFacts.Utf16FromUtf8_characters _ _ m2 Hrun2)
      as (cs2 & Hsc2 & -> & Hr2 & _).
    pose proof (TranscodingFacts.utf16_scalars_encode_all cs1 Hsc1) as H1.
    pose proof (TranscodingFacts.utf16_scalars_encode_all cs2 Hsc2) as H2.
    rewrite <- Hr1 in H1. rewrite <- Hr2 in H2.
    rewrite H1 in H2. now injection H2 as ->.
Qed.

Lemma conversions_injective_witness :
  [0x4A; 0x5B66] = [0x4A; 0x5B66] /\
  [0x4A; 0xE5; 0xAD; 0xA6] = [0x4A; 0xE5; 0xAD; 0xA6].
Proof.
  split.
  - apply (proj1 conversions_injective _ _ [0x4A; 0xE5; 0xAD; 0xA6]
             (Reference.start 0) (Reference.start 7)); reflexivity.
  - apply (proj2 conversions_injective _ _ [0x4A; 0x5B66]
             (Reference.start 0) (Reference.start 7)); reflexivity.
Defined.
